(** * DebToIPA: the conversion pipeline of [main.go], embedded and verified

    The development follows [convert] in [main.go]: the scan of the outer
    ar archive with its dispatch on the compression suffix, the single
    pass over the tar stream (app-root detection, RAM/disk placement,
    capture of [Info.plist]), the reading of the bundle descriptor, and the
    packaging loop with its permission fixes and external attributes.

    Go values are represented as the code has them: [string] is a sequence
    of bytes ([String.string]), [int64], [int] and [uint32] are [Z] with the
    wrap-around written out, byte slices are [list byte], the spillover
    directory is a finite map from paths to contents. *)

From Stdlib Require Import ZArith Lia Bool Ascii Strings.Byte.
From stdpp Require Import base tactics option list strings gmap pretty.

Local Open Scope Z_scope.

#[local] Arguments String.append !_ _ / : simpl nomatch.

(** ** Fixed-width integers *)

Definition wrap64 (x : Z) : Z := (x + 2 ^ 63) mod 2 ^ 64 - 2 ^ 63.
Definition wrap_u32 (x : Z) : Z := x mod 2 ^ 32.
Definition max_int64 : Z := 2 ^ 63 - 1.
Definition min_int64 : Z := - 2 ^ 63.

(** ** Package [strings] of the Go standard library *)

Module GoStrings.

(** [len(s)] as an [int]. *)
Definition len (s : string) : Z := Z.of_nat (String.length s).

(** [s[:n]] for [0 <= n <= len(s)]. *)
Fixpoint slice_to (n : nat) (s : string) : string :=
  match n, s with
  | S n', String c s' => String c (slice_to n' s')
  | _, _ => ""
  end.

(** [s[n:]] for [0 <= n <= len(s)]. *)
Fixpoint slice_from (n : nat) (s : string) : string :=
  match n, s with
  | S n', String _ s' => slice_from n' s'
  | _, _ => s
  end.

(** [strings.HasPrefix]: [s] begins with [prefix]. *)
Fixpoint HasPrefix (s prefix : string) {struct prefix} : bool :=
  match prefix, s with
  | "", _ => true
  | String c p', String d s' => if Ascii.eqb c d then HasPrefix s' p' else false
  | String _ _, "" => false
  end.

(** [strings.HasSuffix]: [s] ends with [suffix]. *)
Fixpoint HasSuffix (s suffix : string) : bool :=
  if String.eqb s suffix then true
  else match s with
       | "" => false
       | String _ s' => HasSuffix s' suffix
       end.

(** [strings.Index]: byte offset of the first instance of [substr] in
    [s], or [-1]. *)
Fixpoint Index (s substr : string) : Z :=
  if HasPrefix s substr then 0
  else match s with
       | "" => -1
       | String _ s' =>
           let i := Index s' substr in
           if i =? -1 then -1 else i + 1
       end.

(** [strings.Contains]. *)
Definition Contains (s substr : string) : bool := 0 <=? Index s substr.

(** [strings.TrimSuffix]: [s] without the trailing [suffix], or [s]. *)
Definition TrimSuffix (s suffix : string) : string :=
  if HasSuffix s suffix
  then slice_to (String.length s - String.length suffix) s
  else s.

(** [strings.TrimPrefix]: [s] without the leading [prefix], or [s]. *)
Definition TrimPrefix (s prefix : string) : string :=
  if HasPrefix s prefix then slice_from (String.length prefix) s else s.

(** [strings.ReplaceAll] for one-byte [old] and [new]. *)
Fixpoint ReplaceByte (s : string) (old new : ascii) : string :=
  match s with
  | "" => ""
  | String c s' =>
      String (if Ascii.eqb c old then new else c) (ReplaceByte s' old new)
  end.

End GoStrings.

Import GoStrings.

(** ** Packages [path] and [path/filepath] *)

Module GoPath.

Definition slash : ascii := "/"%char.

Fixpoint has_slash (s : string) : bool :=
  match s with
  | "" => false
  | String c s' => Ascii.eqb c slash || has_slash s'
  end.

(** The loop of [path.Base] that strips trailing slashes. *)
Fixpoint strip_slashes (s : string) : string :=
  match s with
  | "" => ""
  | String c s' =>
      let r := strip_slashes s' in
      if String.eqb r "" && Ascii.eqb c slash then "" else String c r
  end.

(** [path[i+1:]] for [i] the last index of a slash, [path] when there is
    none. *)
Fixpoint last_elem (s : string) : string :=
  match s with
  | "" => ""
  | String c s' =>
      if has_slash s' then last_elem s'
      else if Ascii.eqb c slash then s' else String c s'
  end.

(** [path.Base]. *)
Definition Base (path : string) : string :=
  if String.eqb path "" then "."
  else
    let p := last_elem (strip_slashes path) in
    if String.eqb p "" then "/" else p.

(** The slash-separated elements of a path, empty ones included. *)
Fixpoint elems (s : string) : list string :=
  match s with
  | "" => [""]
  | String c s' =>
      match elems s' with
      | e :: es => if Ascii.eqb c slash then "" :: e :: es else String c e :: es
      | [] => [String c ""]
      end
  end.

(** One element of the scan of [path.Clean]: [out] holds the elements
    written so far, last first, and [n] counts those a [..] may remove. *)
Definition clean_step (rooted : bool) (acc : list string * nat) (e : string)
  : list string * nat :=
  let '(out, n) := acc in
  if String.eqb e "" || String.eqb e "." then (out, n)
  else if String.eqb e ".." then
    match n with
    | S n' => (tail out, n')
    | O => if rooted then (out, O) else (".." :: out, O)
    end
  else (e :: out, S n).

Fixpoint join_slash (l : list string) : string :=
  match l with
  | [] => ""
  | [e] => e
  | e :: l' => e +:+ String slash (join_slash l')
  end.

(** [path.Clean]. *)
Definition Clean (path : string) : string :=
  match path with
  | "" => "."
  | String c _ =>
      let rooted := Ascii.eqb c slash in
      let out := fst (fold_left (clean_step rooted) (elems path) ([], O)) in
      let body := join_slash (rev out) in
      if rooted then String slash body
      else if String.eqb body "" then "." else body
  end.

(** [path.Join]. *)
Definition Join (elem : list string) : string :=
  if forallb (String.eqb "") elem then ""
  else
    Clean (fold_left
             (fun buf e =>
                if negb (String.eqb buf "") then buf +:+ String slash e
                else if negb (String.eqb e "") then e
                else buf)
             elem "").

End GoPath.

Module Filepath.

(** [filepath.ToSlash] on a platform whose separator is [sep]. *)
Definition ToSlash (sep : ascii) (path : string) : string :=
  if Ascii.eqb sep GoPath.slash then path
  else ReplaceByte path sep GoPath.slash.

(** [filepath.Join(dir, name)] for a clean, non-empty [dir] and a
    [name] that is one plain path element; this is how [convert] calls
    it, on the result of [os.MkdirTemp] and on [spill_<n>]. *)
Definition Join (sep : ascii) (dir name : string) : string :=
  dir +:+ String sep name.

End Filepath.

(** ** Data model *)

(** [MaxMemoryUsage]: the 2 GiB ceiling on bytes held in memory. *)
Definition MaxMemoryUsage : Z := 2 * 1024 * 1024 * 1024.

(** [VirtualFile]: the bridge between the extracted tar and the final zip.
    A nil [Data] slice is [None]. *)
Record VirtualFile := {
  Name : string;
  Data : option (list byte);
  DiskPath : string;
  Mode : Z;
  ModTime : Z;
  IsDir : bool;
  IsLink : bool;
  LinkDest : string
}.

(** [PlistDict]: the [key] and [string] children of the descriptor's
    [dict], each list in document order. The field [String] of the code is
    [String_] here, [String] being the constructor of strings. *)
Record PlistDict := { Keys : list string; String_ : list string }.
Record Plist := { Dict : PlistDict }.

(** The fields of [tar.Header] that [convert] reads. *)
Record TarHeader := {
  hName : string;
  hMode : Z;
  hModTime : Z;
  Typeflag : ascii;
  Size : Z;
  Linkname : string
}.

Definition TypeReg : ascii := "0"%char.
Definition TypeSymlink : ascii := "2"%char.
Definition TypeDir : ascii := "5"%char.
(** [tar.TypeLink], a hard link: one of the flags the loop does not store. *)
Definition TypeLink : ascii := "1"%char.

(** What [tarReader.Next] yields: a read error, or a header together with
    the bytes that reading the entry delivers and whether that read ends in
    an error instead of end of file. The end of the list is [io.EOF]. *)
Inductive TarNext :=
  | TarFail
  | TarEntry (header : TarHeader) (body : list byte) (bodyErr : bool).

(** What [arReader.Next] yields. *)
Inductive ArNext :=
  | ArFail
  | ArMember (name : string) (content : list byte).

(** What [os.Open] followed by [ar.NewReader] gives for the input path. *)
Inductive DebSource :=
  | OpenFails
  | NotAnArchive
  | ArStream (members : list ArNext).

Inductive Method := Store | Deflate.

(** The fields of [zip.FileHeader] that [convert] sets. *)
Record FileHeader := {
  zName : string;
  zMethod : Method;
  Modified : Z;
  ExternalAttrs : Z
}.

(** The errors [convert] returns, with the message of each in the code. *)
Inductive Error :=
  | ErrOpen                          (* no permission or file not found *)
  | ErrInvalidDeb                    (* invalid deb archive *)
  | ErrArRead                        (* error of arReader.Next *)
  | ErrUnsupportedCompression (name : string)
                                     (* unsupported compression method *)
  | ErrDecompression                 (* decompression failed *)
  | ErrNoData                        (* data.tar not found in deb *)
  | ErrMkdirTemp                     (* error of os.MkdirTemp *)
  | ErrTarRead                       (* tar read error *)
  | ErrReadAll                       (* error of io.ReadAll *)
  | ErrSpillCreate                   (* error of os.Create on a spill file *)
  | ErrUnsupportedApp                (* unsupported app: no .app directory *)
  | ErrCreateOutput                  (* error of os.Create on the .ipa *)
  | ErrZipHeader.                    (* error of zipWriter.CreateHeader *)

Inductive result (A : Type) :=
  | Ok (a : A)
  | Err (e : Error).
Arguments Ok {A} a.
Arguments Err {A} e.

(** The collaborators of [convert]: the platform's path separator, the
    decoders, the file system calls that can fail, the XML decoder and the
    zip writer. [file_Write path body] is the number of bytes of [body]
    that [io.Copy] gets into the spill file at [path] before a write fails,
    at least the length of [body] when none does; [file_Read path content]
    is the number of bytes that [os.Open] and the reads deliver from the
    file at [path], 0 when the file cannot be opened, at least the length
    of [content] when nothing fails. *)
Record World := {
  Separator : ascii;
  gzip_NewReader : list byte -> option (list TarNext);
  lzma_NewReader : list byte -> option (list TarNext);
  bzip2_NewReader : list byte -> list TarNext;
  xz_NewReader : list byte -> option (list TarNext);
  os_MkdirTemp : option string;
  os_Create : string -> bool;
  file_Write : string -> list byte -> nat;
  file_Read : string -> list byte -> nat;
  xml_Unmarshal : list byte -> option Plist;
  zip_CreateHeader : FileHeader -> bool
}.

(** The local variables of the extraction loop, and the contents of the
    spillover directory. *)
Record Engine := {
  files : list VirtualFile;
  currentRamUsage : Z;
  totalSize : Z;
  appDirPrefix : string;
  infoPlistData : list byte;
  fileCount : Z;
  spillCount : Z;
  disk : gmap string (list byte)
}.

Definition engine0 : Engine :=
  {| files := []; currentRamUsage := 0; totalSize := 0; appDirPrefix := "";
     infoPlistData := []; fileCount := 0; spillCount := 0; disk := ∅ |}.

(** ** Extraction and classification *)

(** Lines 172-177: the app root is set from the first path with [.app/],
    and only while it is still empty. *)
Definition detect_app_root (appDirPrefix name : string) : string :=
  if String.eqb appDirPrefix "" then
    let idx := Index name ".app/" in
    if negb (idx =? -1) then slice_to (Z.to_nat (idx + 5)) name else appDirPrefix
  else appDirPrefix.

(** [filepath.Join(tempDir, fmt.Sprintf("spill_%d", spillCount))]. *)
Definition spill_path (W : World) (tempDir : string) (n : Z) : string :=
  Filepath.Join (Separator W) tempDir ("spill_" +:+ pretty n).

(** [io.ReadAll(tarReader)]. *)
Definition ReadAll (body : list byte) (bodyErr : bool) : result (list byte) :=
  if bodyErr then Err ErrReadAll else Ok body.

(** Lines 196-216: the RAM or disk decision for a regular file. It gives
    the updated counters and spill directory, the entry with its content
    set, and the local [data]. *)
Definition place (W : World) (tempDir : string) (st : Engine) (vFile : VirtualFile)
    (header : TarHeader) (body : list byte) (bodyErr : bool)
  : result (Engine * VirtualFile * list byte) :=
  if wrap64 (currentRamUsage st + Size header) <? MaxMemoryUsage then
    match ReadAll body bodyErr with
    | Err e => Err e
    | Ok data =>
        Ok ({| files := files st;
               currentRamUsage :=
                 wrap64 (currentRamUsage st + Z.of_nat (length data));
               totalSize := totalSize st; appDirPrefix := appDirPrefix st;
               infoPlistData := infoPlistData st; fileCount := fileCount st;
               spillCount := spillCount st; disk := disk st |},
            {| Name := Name vFile; Data := Some data; DiskPath := DiskPath vFile;
               Mode := Mode vFile; ModTime := ModTime vFile; IsDir := IsDir vFile;
               IsLink := IsLink vFile; LinkDest := LinkDest vFile |},
            data)
    end
  else
    let spillCount' := wrap64 (spillCount st + 1) in
    let tempPath := spill_path W tempDir spillCount' in
    if os_Create W tempPath then
      (* io.Copy writes what the entry delivers until a read or a write
         fails; its error is assigned and never tested (line 213) *)
      Ok ({| files := files st; currentRamUsage := currentRamUsage st;
             totalSize := totalSize st; appDirPrefix := appDirPrefix st;
             infoPlistData := infoPlistData st; fileCount := fileCount st;
             spillCount := spillCount';
             disk := <[tempPath := take (file_Write W tempPath body) body]>
                       (disk st) |},
          {| Name := Name vFile; Data := Data vFile; DiskPath := tempPath;
             Mode := Mode vFile; ModTime := ModTime vFile; IsDir := IsDir vFile;
             IsLink := IsLink vFile; LinkDest := LinkDest vFile |},
          [])
    else Err ErrSpillCreate.

Definition append_file (st : Engine) (vFile : VirtualFile) : Engine :=
  {| files := files st ++ [vFile]; currentRamUsage := currentRamUsage st;
     totalSize := totalSize st; appDirPrefix := appDirPrefix st;
     infoPlistData := infoPlistData st; fileCount := fileCount st;
     spillCount := spillCount st; disk := disk st |}.

(** Lines 218-221: the capture of [Info.plist]. *)
Definition capture_plist (st : Engine) (name : string) (data : list byte) : Engine :=
  if HasSuffix name "Info.plist" && (0 <? Z.of_nat (length data)) then
    {| files := files st; currentRamUsage := currentRamUsage st;
       totalSize := totalSize st; appDirPrefix := appDirPrefix st;
       infoPlistData := data; fileCount := fileCount st;
       spillCount := spillCount st; disk := disk st |}
  else st.

(** The body of the extraction loop (lines 165-227) for one header. *)
Definition extract_step (W : World) (tempDir : string) (st : Engine)
    (header : TarHeader) (body : list byte) (bodyErr : bool) : result Engine :=
  let st1 :=
    {| files := files st; currentRamUsage := currentRamUsage st;
       totalSize := totalSize st;
       appDirPrefix := detect_app_root (appDirPrefix st) (hName header);
       infoPlistData := infoPlistData st;
       fileCount := wrap64 (fileCount st + 1);
       spillCount := spillCount st; disk := disk st |} in
  let vFile :=
    {| Name := hName header; Data := None; DiskPath := "";
       Mode := hMode header; ModTime := hModTime header;
       IsDir := Ascii.eqb (Typeflag header) TypeDir;
       IsLink := false; LinkDest := "" |} in
  if Ascii.eqb (Typeflag header) TypeSymlink then
    Ok (append_file st1
          {| Name := Name vFile; Data := Data vFile; DiskPath := DiskPath vFile;
             Mode := Mode vFile; ModTime := ModTime vFile; IsDir := IsDir vFile;
             IsLink := true; LinkDest := Linkname header |})
  else if Ascii.eqb (Typeflag header) TypeReg then
    let st2 :=
      {| files := files st1; currentRamUsage := currentRamUsage st1;
         totalSize := wrap64 (totalSize st1 + Size header);
         appDirPrefix := appDirPrefix st1; infoPlistData := infoPlistData st1;
         fileCount := fileCount st1; spillCount := spillCount st1;
         disk := disk st1 |} in
    match place W tempDir st2 vFile header body bodyErr with
    | Err e => Err e
    | Ok (st3, vFile', data) =>
        Ok (append_file (capture_plist st3 (hName header) data) vFile')
    end
  else if Ascii.eqb (Typeflag header) TypeDir then
    Ok (append_file st1 vFile)
  else Ok st1.

(** The extraction loop (lines 156-228). *)
Fixpoint extract_loop (W : World) (tempDir : string) (st : Engine)
    (stream : list TarNext) : result Engine :=
  match stream with
  | [] => Ok st
  | TarFail :: _ => Err ErrTarRead
  | TarEntry header body bodyErr :: rest =>
      match extract_step W tempDir st header body bodyErr with
      | Err e => Err e
      | Ok st' => extract_loop W tempDir st' rest
      end
  end.

(** ** Metadata parsing *)

Record Metadata := {
  executableName : string;
  bundleID : string;
  version : string
}.

(** Lines 239-241. *)
Definition metadata0 : Metadata :=
  {| executableName := ""; bundleID := "Unknown"; version := "Unknown" |}.

(** Lines 252-260: the three tests on one key, in order. *)
Definition assign_key (key value : string) (m : Metadata) : Metadata :=
  let m1 :=
    if String.eqb key "CFBundleExecutable"
    then {| executableName := value; bundleID := bundleID m; version := version m |}
    else m in
  let m2 :=
    if String.eqb key "CFBundleIdentifier"
    then {| executableName := executableName m1; bundleID := value;
            version := version m1 |}
    else m1 in
  if String.eqb key "CFBundleVersion" || String.eqb key "CFBundleShortVersionString"
  then {| executableName := executableName m2; bundleID := bundleID m2;
          version := value |}
  else m2.

(** Lines 247-261: [for i, key := range Keys], leaving the loop as soon
    as [i >= len(String)]. *)
Fixpoint plist_loop (i : nat) (keys strs : list string) (m : Metadata) : Metadata :=
  match keys with
  | [] => m
  | key :: rest =>
      match strs !! i with
      | None => m
      | Some value => plist_loop (S i) rest strs (assign_key key value m)
      end
  end.

(** Lines 243-263. *)
Definition parse_metadata (W : World) (infoPlistData : list byte) : Metadata :=
  if 0 <? Z.of_nat (length infoPlistData) then
    match xml_Unmarshal W infoPlistData with
    | Some plist => plist_loop 0 (Keys (Dict plist)) (String_ (Dict plist)) metadata0
    | None => metadata0
    end
  else metadata0.

(** Lines 266-270: the executable name falls back on the folder name. *)
Definition resolve_executable (executableName appNameFolder : string) : string :=
  if String.eqb executableName "" then TrimSuffix appNameFolder ".app"
  else executableName.

(** ** Packaging *)

Definition o777 : Z := 0x1ff.
Definition o755 : Z := 0x1ed.
Definition o644 : Z := 0x1a4.

(** Lines 319-362: the compression method, [unixFileType] and [perms] of
    an entry written at [finalPath]. *)
Definition permission_fix (vf : VirtualFile) (finalPath executableName : string)
  : Method * Z * Z :=
  let perms := Z.land (wrap_u32 (Mode vf)) o777 in
  if IsLink vf then (Store, 0xA000, o777)
  else if IsDir vf then (Store, 0x4000, if perms =? 0 then o755 else perms)
  else
    let isMainBinary := String.eqb (GoPath.Base finalPath) executableName in
    let perms :=
      if isMainBinary || HasSuffix finalPath ".dylib" || Contains finalPath "/bin/"
      then o755
      else if perms =? 0 then o644 else perms in
    ((if isMainBinary then Store else Deflate), 0x8000, perms).

(** Line 366, in [uint32] arithmetic. *)
Definition external_attrs (unixFileType perms : Z) : Z :=
  wrap_u32 (Z.shiftl (Z.lor unixFileType (wrap_u32 perms)) 16).

(** Lines 298-307. *)
Definition final_path (vf : VirtualFile) (cleanName cleanAppPrefix appNameFolder : string)
  : string :=
  let relPath := TrimPrefix cleanName cleanAppPrefix in
  let finalPath := GoPath.Join ["Payload"; appNameFolder; relPath] in
  if IsDir vf then finalPath +:+ "/" else finalPath.

(** Lines 309-366: the header handed to the zip writer. *)
Definition make_header (vf : VirtualFile) (finalPath executableName : string)
  : FileHeader :=
  let '(method, unixFileType, perms) := permission_fix vf finalPath executableName in
  {| zName := finalPath; zMethod := method; Modified := ModTime vf;
     ExternalAttrs := external_attrs unixFileType perms |}.

(** Lines 373-383: the bytes the packager takes for the entry. Of a spill
    file it takes what [os.Open] and the reads deliver: the errors of both
    are dropped (lines 377-378), so a file that cannot be opened contributes
    nothing and a read that fails cuts the body short. *)
Definition entry_body (W : World) (disk : gmap string (list byte))
    (vf : VirtualFile) : list byte :=
  if IsLink vf then String.list_byte_of_string (LinkDest vf)
  else if negb (IsDir vf) then
    if negb (String.eqb (DiskPath vf) "") then
      let content := default [] (disk !! DiskPath vf) in
      take (file_Read W (DiskPath vf) content) content
    else default [] (Data vf)
  else [].

Definition ZipEntry : Type := FileHeader * list byte.

(** Line 294: the filter on the app folder. *)
Definition in_app (W : World) (cleanAppPrefix : string) (vf : VirtualFile) : bool :=
  HasPrefix (Filepath.ToSlash (Separator W) (Name vf)) cleanAppPrefix.

(** The zip entry of a file that passes the filter. *)
Definition emit (W : World) (disk : gmap string (list byte))
    (cleanAppPrefix appNameFolder executableName : string) (vf : VirtualFile)
  : ZipEntry :=
  let cleanName := Filepath.ToSlash (Separator W) (Name vf) in
  let finalPath := final_path vf cleanName cleanAppPrefix appNameFolder in
  (make_header vf finalPath executableName, entry_body W disk vf).

(** The packaging loop (lines 290-384): the error, if any, and the
    entries written to the archive so far. *)
Fixpoint pack_loop (W : World) (disk : gmap string (list byte))
    (cleanAppPrefix appNameFolder executableName : string)
    (files : list VirtualFile) (written : list ZipEntry)
  : option Error * list ZipEntry :=
  match files with
  | [] => (None, written)
  | vf :: rest =>
      if negb (in_app W cleanAppPrefix vf) then
        pack_loop W disk cleanAppPrefix appNameFolder executableName rest written
      else
        let entry := emit W disk cleanAppPrefix appNameFolder executableName vf in
        if zip_CreateHeader W (fst entry) then
          pack_loop W disk cleanAppPrefix appNameFolder executableName rest
            (written ++ [entry])
        else (Some ErrZipHeader, written)
  end.

(** ** The conversion *)

(** Lines 118-120: a decoder that cannot be set up fails the run. *)
Definition opened (r : option (list TarNext)) : result (list TarNext) :=
  match r with
  | Some t => Ok t
  | None => Err ErrDecompression
  end.

(** Lines 104-117: the switch on the member's suffix. *)
Definition open_payload (W : World) (name : string) (content : list byte)
  : result (list TarNext) :=
  if HasSuffix name ".gz" then opened (gzip_NewReader W content)
  else if HasSuffix name ".lzma" then opened (lzma_NewReader W content)
  else if HasSuffix name ".bzip2" then Ok (bzip2_NewReader W content)
  else if HasSuffix name ".xz" then opened (xz_NewReader W content)
  else Err (ErrUnsupportedCompression name).

(** Lines 91-128: the scan of the ar members for [data.tar*]. *)
Fixpoint find_data (W : World) (members : list ArNext) : result (list TarNext) :=
  match members with
  | [] => Err ErrNoData
  | ArFail :: _ => Err ErrArRead
  | ArMember name content :: rest =>
      if HasPrefix name "data.tar" then open_payload W name content
      else find_data W rest
  end.

(** Line 276. *)
Definition ipa_path (debPath : string) : string :=
  TrimSuffix debPath ".deb" +:+ ".ipa".

(** What a run leaves behind: the error returned, if any, and the output
    file if [os.Create] made one, with the entries written to it. *)
Record Outcome := {
  error : option Error;
  ipa : option (string * list ZipEntry)
}.

Definition failed (e : Error) : Outcome := {| error := Some e; ipa := None |}.

(** [convert] (lines 73-387). *)
Definition convert (W : World) (debPath : string) (deb : DebSource) : Outcome :=
  match deb with
  | OpenFails => failed ErrOpen
  | NotAnArchive => failed ErrInvalidDeb
  | ArStream members =>
      match find_data W members with
      | Err e => failed e
      | Ok dataTar =>
          match os_MkdirTemp W with
          | None => failed ErrMkdirTemp
          | Some tempDir =>
              match extract_loop W tempDir engine0 dataTar with
              | Err e => failed e
              | Ok st =>
                  if String.eqb (appDirPrefix st) "" then failed ErrUnsupportedApp
                  else
                    let meta := parse_metadata W (infoPlistData st) in
                    let cleanAppPrefix :=
                      Filepath.ToSlash (Separator W) (appDirPrefix st) in
                    let appNameFolder := GoPath.Base cleanAppPrefix in
                    let executableName :=
                      resolve_executable (executableName meta) appNameFolder in
                    let ipaPath := ipa_path debPath in
                    if os_Create W ipaPath then
                      let '(err, written) :=
                        pack_loop W (disk st) cleanAppPrefix appNameFolder
                          executableName (files st) [] in
                      {| error := err; ipa := Some (ipaPath, written) |}
                    else failed ErrCreateOutput
              end
          end
      end
  end.

(** ** Specification-side definitions *)

Inductive Kind := Symlink | Directory | Regular.

(** The kind the packaging loop acts on (lines 323, 330, 339). *)
Definition kind_of (vf : VirtualFile) : Kind :=
  if IsLink vf then Symlink else if IsDir vf then Directory else Regular.

(** The table of the permission algebra, read with [permBits] as the
    permission bits taken from the source: (typeBits, permBits, method). *)
Definition perm_table (kind : Kind) (permBits : Z) (isMainExecutable : bool)
    (path : string) : Z * Z * Method :=
  match kind with
  | Symlink => (0xA000, o777, Store)
  | Directory => (0x4000, if permBits =? 0 then o755 else permBits, Store)
  | Regular =>
      if isMainExecutable then (0x8000, o755, Store)
      else if HasSuffix path ".dylib" || Contains path "/bin/"
           then (0x8000, o755, Deflate)
           else (0x8000, if permBits =? 0 then o644 else permBits, Deflate)
  end.

(** The triple of [permission_fix] in the order of the table. *)
Definition fix_triple (vf : VirtualFile) (finalPath executableName : string)
  : Z * Z * Method :=
  let '(method, unixFileType, perms) := permission_fix vf finalPath executableName in
  (unixFileType, perms, method).

Definition is_main_executable (finalPath executableName : string) : bool :=
  String.eqb (GoPath.Base finalPath) executableName.

(** The invariant of the extraction loop: the bytes held in memory stay
    under the ceiling, and the spill files are exactly those numbered from 1
    to [spillCount]. *)
Definition engine_inv (W : World) (tempDir : string) (st : Engine) : Prop :=
  0 <= currentRamUsage st < MaxMemoryUsage /\
  0 <= spillCount st /\
  (forall vf, vf ∈ files st -> DiskPath vf <> "" ->
     exists k, 1 <= k <= spillCount st /\ DiskPath vf = spill_path W tempDir k) /\
  (forall p, is_Some (disk st !! p) ->
     exists k, 1 <= k <= spillCount st /\ p = spill_path W tempDir k).

(** A stream item as a tar reader delivers it: the declared size is not
    negative and leaves room for the ceiling within [int64], and an entry
    read without error has that many bytes. *)
Definition well_sized (x : TarNext) : Prop :=
  match x with
  | TarFail => True
  | TarEntry header body bodyErr =>
      0 <= Size header <= max_int64 - MaxMemoryUsage /\
      (bodyErr = false -> Z.of_nat (length body) = Size header)
  end.

(** The paths of the headers of a tar stream, in stream order. *)
Definition header_names (stream : list TarNext) : list string :=
  omap (fun x => match x with
                 | TarEntry header _ _ => Some (hName header)
                 | TarFail => None
                 end) stream.

(** [s] contains [sub]. *)
Definition occurs (sub s : string) : Prop :=
  exists pre post, s = pre +:+ sub +:+ post.

(** [pre] is what comes before the first occurrence of [sub] in [s]. *)
Definition before_first (sub s pre : string) : Prop :=
  (exists post, s = pre +:+ sub +:+ post) /\
  forall pre' post', s = pre' +:+ sub +:+ post' -> len pre <= len pre'.

(** The bytes a stored entry offers to the metadata capture: those of an
    entry named [...Info.plist] that is held in memory and is not empty. *)
Definition captured (vf : VirtualFile) : option (list byte) :=
  if HasSuffix (Name vf) "Info.plist" then
    match Data vf with
    | Some (b :: data) => Some (b :: data)
    | _ => None
    end
  else None.

(** [vf] is an [Info.plist] held in memory with the non-empty bytes [d]. *)
Definition qualifies (vf : VirtualFile) (d : list byte) : Prop :=
  HasSuffix (Name vf) "Info.plist" = true /\ Data vf = Some d /\ d <> [].

(** The type flags the extraction loop stores: symlink, regular file,
    directory. *)
Definition is_kept (header : TarHeader) : bool :=
  Ascii.eqb (Typeflag header) TypeSymlink || Ascii.eqb (Typeflag header) TypeReg
  || Ascii.eqb (Typeflag header) TypeDir.

(** The headers of the stored entries of a stream, in stream order. *)
Definition kept_headers (stream : list TarNext) : list TarHeader :=
  omap (fun x => match x with
                 | TarEntry header _ _ => if is_kept header then Some header else None
                 | TarFail => None
                 end) stream.

(** [vf] is the stored form of the entry with header [header]. *)
Definition classified (vf : VirtualFile) (header : TarHeader) : Prop :=
  Name vf = hName header /\ Mode vf = hMode header /\
  ModTime vf = hModTime header /\
  IsDir vf = Ascii.eqb (Typeflag header) TypeDir /\
  IsLink vf = Ascii.eqb (Typeflag header) TypeSymlink /\
  LinkDest vf =
    (if Ascii.eqb (Typeflag header) TypeSymlink then Linkname header else "").

(** The entries the packaging loop selects, in store order, each as the
    zip entry made from it. *)
Definition selected (W : World) (st : Engine) : list ZipEntry :=
  let cleanAppPrefix := Filepath.ToSlash (Separator W) (appDirPrefix st) in
  let appNameFolder := GoPath.Base cleanAppPrefix in
  let executableName :=
    resolve_executable (executableName (parse_metadata W (infoPlistData st)))
      appNameFolder in
  map (emit W (disk st) cleanAppPrefix appNameFolder executableName)
      (List.filter (in_app W cleanAppPrefix) (files st)).

(** An ar member that the scan passes over. *)
Definition passed_over (m : ArNext) : Prop :=
  exists name content, m = ArMember name content /\ HasPrefix name "data.tar" = false.

(** One turn of the loop of [plist_loop] on a key and its string. *)
Definition assign_pair (m : Metadata) (kv : string * string) : Metadata :=
  assign_key kv.1 kv.2 m.

(** The value of the last pair whose key is one of [keys], or [dflt]. *)
Definition last_value (keys : list string) (pairs : list (string * string))
    (dflt : string) : string :=
  default dflt (last (omap (fun kv => if bool_decide (kv.1 ∈ keys)
                                      then Some kv.2 else None) pairs)).

(** The descriptor read as the spec words it: the i-th key goes with the
    i-th string, up to the shorter list, and each field is the value of the
    last pair that sets it. *)
Definition paired_metadata (keys strs : list string) : Metadata :=
  let pairs := zip keys strs in
  {| executableName := last_value ["CFBundleExecutable"] pairs "";
     bundleID := last_value ["CFBundleIdentifier"] pairs "Unknown";
     version :=
       last_value ["CFBundleVersion"; "CFBundleShortVersionString"] pairs
         "Unknown" |}.

(** ** The program entry *)

(** [main] (lines 50-71): the exit status, and what [convert] did when it
    was called. [Args] is [os.Args], program name first; [fs] gives what
    opening each path yields. *)
Definition main (W : World) (fs : string -> DebSource) (Args : list string)
  : Z * option Outcome :=
  if Z.of_nat (length Args) <? 2 then (1, None)
  else
    let debPath := default "" (Args !! 1%nat) in
    let o := convert W debPath (fs debPath) in
    match error o with
    | Some _ => (1, Some o)
    | None => (0, Some o)
    end.

(** ** Further specification-side definitions *)

Definition sumZ (l : list Z) : Z := foldr Z.add 0 l.

(** The store entry made from a header, given its content. *)
Definition stored (header : TarHeader) (data : option (list byte))
    (diskPath : string) : VirtualFile :=
  {| Name := hName header; Data := data; DiskPath := diskPath;
     Mode := hMode header; ModTime := hModTime header;
     IsDir := Ascii.eqb (Typeflag header) TypeDir;
     IsLink := Ascii.eqb (Typeflag header) TypeSymlink;
     LinkDest := if Ascii.eqb (Typeflag header) TypeSymlink
                 then Linkname header else "" |}.

(** The bytes held in the buffers of the store. *)
Definition ram_bytes (files : list VirtualFile) : Z :=
  sumZ (map (fun vf => Z.of_nat (length (default [] (Data vf)))) files).

(** The bytes the stream delivers for each entry the store keeps: the
    link target of a symlink, the body of a regular file, nothing for a
    directory. *)
Definition delivered (stream : list TarNext) : list (list byte) :=
  omap (fun x =>
          match x with
          | TarFail => None
          | TarEntry header body _ =>
              if Ascii.eqb (Typeflag header) TypeSymlink
              then Some (String.list_byte_of_string (Linkname header))
              else if Ascii.eqb (Typeflag header) TypeReg then Some body
              else if Ascii.eqb (Typeflag header) TypeDir then Some []
              else None
          end) stream.

(** The declared sizes of the regular files of a stream. *)
Definition regular_sizes (stream : list TarNext) : list Z :=
  omap (fun x =>
          match x with
          | TarEntry header _ _ =>
              if Ascii.eqb (Typeflag header) TypeReg then Some (Size header)
              else None
          | TarFail => None
          end) stream.

(** The part of the loop invariant that concerns the spill files. *)
Definition spill_inv (W : World) (tempDir : string) (st : Engine) : Prop :=
  0 <= spillCount st /\
  map DiskPath (List.filter (fun vf => negb (String.eqb (DiskPath vf) "")) (files st))
  = map (spill_path W tempDir) (seqZ 1 (spillCount st)) /\
  (forall p, is_Some (disk st !! p) ->
     exists k, 1 <= k <= spillCount st /\ p = spill_path W tempDir k).

(** What comes back of a body sent to the spill file [p]: the bytes the
    copy of line 213 got into the file, as far as the copy of line 378
    reads them. *)
Definition read_back (W : World) (p : string) (sent : list byte) : list byte :=
  let content := take (file_Write W p sent) sent in
  take (file_Read W p content) content.

(** What the packager is to find for a stored entry, given what the
    stream delivered for it. *)
Definition packed_body (W : World) (vf : VirtualFile) (sent : list byte)
  : list byte :=
  if String.eqb (DiskPath vf) "" then sent else read_back W (DiskPath vf) sent.

(** Neither a write to a spill file nor the read back from it stops
    short. *)
Definition lossless_files (W : World) : Prop :=
  (forall p b, (length b <= file_Write W p b)%nat) /\
  (forall p c, (length c <= file_Read W p c)%nat).

(** The shape of a stored entry: it is not both link and directory; a
    link or a directory has no content; a regular file has either a buffer
    or a spill path, never both and never neither. *)
Definition shaped (vf : VirtualFile) : Prop :=
  IsLink vf && IsDir vf = false /\
  (IsLink vf || IsDir vf = true -> Data vf = None /\ DiskPath vf = "") /\
  (IsLink vf || IsDir vf = false ->
   (is_Some (Data vf) /\ DiskPath vf = "") \/ (Data vf = None /\ DiskPath vf <> "")).

(** A path element that [path.Clean] keeps as it is. *)
Definition plain (e : string) : Prop :=
  GoPath.has_slash e = false /\ e <> "" /\ e <> "." /\ e <> "..".

(** ** Sample inputs *)

(** A Unix host on which every collaborator succeeds: each decoder yields
    [tar], the descriptor decodes to [plist]. *)
Definition unix_world (tar : list TarNext) (plist : option Plist) : World :=
  {| Separator := "/"%char;
     gzip_NewReader := fun _ => Some tar;
     lzma_NewReader := fun _ => Some tar;
     bzip2_NewReader := fun _ => tar;
     xz_NewReader := fun _ => Some tar;
     os_MkdirTemp := Some "/tmp/ipa-spill1";
     os_Create := fun _ => true;
     file_Write := fun _ body => length body;
     file_Read := fun _ content => length content;
     xml_Unmarshal := fun _ => plist;
     zip_CreateHeader := fun _ => true |}.

Definition entry (name : string) (typeflag : ascii) (mode : Z) (content : string)
  : TarNext :=
  TarEntry {| hName := name; hMode := mode; hModTime := 0; Typeflag := typeflag;
              Size := len content; Linkname := "" |}
           (String.list_byte_of_string content) false.

(** The tree [./Foo.app/] with its executable, a library and a
    descriptor. *)
Definition foo_tar : list TarNext :=
  [ entry "./Foo.app/" TypeDir 0 "";
    entry "./Foo.app/Foo" TypeReg 0x1a4 "MACHO";
    entry "./Foo.app/lib.dylib" TypeReg 0x1a4 "DYLIB";
    entry "./Foo.app/Info.plist" TypeReg 0x1a4 "<plist/>" ].

(** Three descriptors: the bundle's, a plug-in's, and an empty one. *)
Definition plists_tar : list TarNext :=
  [ entry "./Foo.app/Info.plist" TypeReg 0x1a4 "<first/>";
    entry "./Foo.app/PlugIns/X.appex/Info.plist" TypeReg 0x1a4 "<second/>";
    entry "./Foo.app/en.lproj/Info.plist" TypeReg 0x1a4 "" ].

(** A regular entry whose header declares 2 GiB, enough to be spilled in
    every state of the loop; [content] stands in for its body. *)
Definition oversize (name content : string) : TarNext :=
  TarEntry {| hName := name; hMode := 0x1a4; hModTime := 0; Typeflag := TypeReg;
              Size := MaxMemoryUsage; Linkname := "" |}
           (String.list_byte_of_string content) false.

(** Two files to spill with a small one between them. *)
Definition spill_tar : list TarNext :=
  [ oversize "./Foo.app/big" "BIGFILE";
    entry "./Foo.app/Foo" TypeReg 0x1ed "MACHO";
    oversize "./Foo.app/more" "MORE" ].

(** A state of the loop four bytes below the ceiling. *)
Definition near_ceiling : Engine :=
  {| files := []; currentRamUsage := MaxMemoryUsage - 4; totalSize := 0;
     appDirPrefix := ""; infoPlistData := []; fileCount := 0;
     spillCount := 0; disk := ∅ |}.

(** The header of a regular entry that declares the largest size an
    [int64] holds, as the base-256 size field of a tar header can. *)
Definition huge_header : TarHeader :=
  {| hName := "./Foo.app/huge"; hMode := 0x1a4; hModTime := 0;
     Typeflag := TypeReg; Size := max_int64; Linkname := "" |}.

(** A host like [unix_world] on which a write to a spill file fails after
    two bytes; its decoders yield [spill_tar]. *)
Definition short_write_world : World :=
  {| Separator := "/"%char;
     gzip_NewReader := fun _ => Some spill_tar;
     lzma_NewReader := fun _ => Some spill_tar;
     bzip2_NewReader := fun _ => spill_tar;
     xz_NewReader := fun _ => Some spill_tar;
     os_MkdirTemp := Some "/tmp/ipa-spill1";
     os_Create := fun _ => true;
     file_Write := fun _ _ => 2%nat;
     file_Read := fun _ content => length content;
     xml_Unmarshal := fun _ => None;
     zip_CreateHeader := fun _ => true |}.

Definition foo_plist : Plist :=
  {| Dict := {| Keys := ["CFBundleExecutable"; "CFBundleIdentifier"];
                String_ := ["Foo"; "com.example.foo"] |} |}.

Definition foo_world : World := unix_world foo_tar (Some foo_plist).

(** * Properties *)

(** ** Fixed-width arithmetic *)

Lemma wrap64_id x : min_int64 <= x <= max_int64 -> wrap64 x = x.
Proof.
  unfold wrap64, min_int64, max_int64. intros Hx.
  rewrite Z.mod_small by lia. lia.
Qed.


(** ** Facts about the string operations *)


Lemma app_assoc_s (a b c : string) : (a +:+ b) +:+ c = a +:+ b +:+ c.
Proof. induction a as [|x a IH]; [done|]. cbn. by rewrite IH. Qed.

Lemma app_length_s (a b : string) :
  String.length (a +:+ b) = (String.length a + String.length b)%nat.
Proof. induction a as [|x a IH]; [done|]. cbn. by rewrite IH. Qed.

Lemma slice_to_app (a b : string) : slice_to (String.length a) (a +:+ b) = a.
Proof. induction a as [|x a IH]; [by destruct b|]. cbn. by rewrite IH. Qed.

Lemma slice_from_app (a b : string) : slice_from (String.length a) (a +:+ b) = b.
Proof. induction a as [|x a IH]; [done|]. cbn. by rewrite IH. Qed.



Lemma HasPrefix_spec (s p : string) :
  HasPrefix s p = true <-> exists r, s = p +:+ r.
Proof.
  revert s. induction p as [|c p IH]; intros s; cbn.
  - split; [intros _; by exists s | done].
  - destruct s as [|d s].
    + split; [done | intros [r Hr]; discriminate].
    + destruct (Ascii.eqb_spec c d) as [->|Hne].
      * rewrite IH. split; intros [r Hr]; exists r.
        -- cbn. by rewrite Hr.
        -- cbn in Hr. by injection Hr.
      * split; [done | intros [r Hr]; cbn in Hr; congruence].
Qed.

Lemma HasPrefix_app (p r : string) : HasPrefix (p +:+ r) p = true.
Proof. apply HasPrefix_spec. by exists r. Qed.

Lemma HasSuffix_spec (s suf : string) :
  HasSuffix s suf = true <-> exists p, s = p +:+ suf.
Proof.
  induction s as [|c s IH]; cbn [HasSuffix].
  - destruct (String.eqb_spec "" suf) as [<-|Hne].
    + split; [intros _; by exists "" | done].
    + split; [done|]. intros [[|x p] Hp]; cbn in Hp; [done | discriminate].
  - destruct (String.eqb_spec (String c s) suf) as [<-|Hne].
    + split; [intros _; by exists "" | done].
    + rewrite IH. split.
      * intros [p ->]. by exists (String c p).
      * intros [[|x p] Hp]; cbn in Hp; [done|].
        injection Hp as _ ->. by exists p.
Qed.

Lemma HasSuffix_app (p suf : string) : HasSuffix (p +:+ suf) suf = true.
Proof. apply HasSuffix_spec. by exists p. Qed.


Lemma TrimSuffix_app (p suf : string) : TrimSuffix (p +:+ suf) suf = p.
Proof.
  unfold TrimSuffix. rewrite HasSuffix_app, app_length_s.
  replace (String.length p + String.length suf - String.length suf)%nat
    with (String.length p) by lia.
  apply slice_to_app.
Qed.

Lemma TrimSuffix_none (s suf : string) :
  HasSuffix s suf = false -> TrimSuffix s suf = s.
Proof. unfold TrimSuffix. by intros ->. Qed.

Lemma TrimPrefix_app (p r : string) : TrimPrefix (p +:+ r) p = r.
Proof. unfold TrimPrefix. rewrite HasPrefix_app. apply slice_from_app. Qed.

Lemma Index_range (s sub : string) : -1 <= Index s sub <= len s.
Proof.
  unfold len. induction s as [|c s IH]; cbn [Index].
  - destruct (HasPrefix "" sub); cbn; lia.
  - destruct (HasPrefix (String c s) sub); [cbn; lia|].
    destruct (Z.eqb_spec (Index s sub) (-1)); cbn [String.length]; lia.
Qed.

(** [Index] finds an occurrence, and no occurrence starts before it. *)
Lemma Index_found (s sub : string) (i : Z) :
  Index s sub = i -> i <> -1 ->
  exists pre post,
    s = pre +:+ sub +:+ post /\ len pre = i /\
    forall pre' post', s = pre' +:+ sub +:+ post' -> i <= len pre'.
Proof.
  unfold len. revert i. induction s as [|c s IH]; intros i; cbn [Index].
  - destruct (HasPrefix "" sub) eqn:Hp; [|intros <-; done].
    intros <- _. apply HasPrefix_spec in Hp as [r Hr].
    exists "", r. split; [done|]. split; [done|]. intros; lia.
  - destruct (HasPrefix (String c s) sub) eqn:Hp.
    + intros <- _. apply HasPrefix_spec in Hp as [r Hr].
      exists "", r. split; [done|]. split; [done|]. intros; lia.
    + destruct (Z.eqb_spec (Index s sub) (-1)) as [|Hne]; [intros <-; done|].
      intros <- _. destruct (IH _ eq_refl Hne) as (pre & post & -> & Hlen & Hmin).
      exists (String c pre), post. split; [done|].
      split; [cbn [String.length]; lia|].
      intros [|x pre'] post' Heq; cbn in Heq.
      * assert (HasPrefix (String c (pre +:+ sub +:+ post)) sub = true) as Hc.
        { apply HasPrefix_spec. by exists post'. }
        congruence.
      * injection Heq as _ Heq. specialize (Hmin _ _ Heq).
        cbn [String.length]. lia.
Qed.

Lemma Index_absent (s sub : string) :
  Index s sub = -1 -> forall pre post, s <> pre +:+ sub +:+ post.
Proof.
  induction s as [|c s IH]; cbn [Index].
  - destruct (HasPrefix "" sub) eqn:Hp; [done|]. intros _ pre post Heq.
    destruct pre; cbn in Heq; [|done].
    assert (HasPrefix "" sub = true) as Hc
      by (apply HasPrefix_spec; by exists post).
    congruence.
  - destruct (HasPrefix (String c s) sub) eqn:Hp; [done|].
    destruct (Z.eqb_spec (Index s sub) (-1)) as [He|Hne].
    + intros _ [|x pre] post Heq; cbn in Heq.
      * assert (HasPrefix (String c s) sub = true) as Hc
          by (apply HasPrefix_spec; by exists post).
        congruence.
      * injection Heq as _ Heq. by apply (IH He pre post).
    + pose proof (Index_range s sub). lia.
Qed.

(** ** The path functions on examples *)

Example Base_app : GoPath.Base "./Applications/MyApp.app/" = "MyApp.app".
Proof. reflexivity. Qed.

Example Base_slashes : GoPath.Base "//" = "/".
Proof. reflexivity. Qed.

Example Join_payload :
  GoPath.Join ["Payload"; "Foo.app"; "Info.plist"] = "Payload/Foo.app/Info.plist".
Proof. reflexivity. Qed.

Example Join_empty_rel : GoPath.Join ["Payload"; "Foo.app"; ""] = "Payload/Foo.app".
Proof. reflexivity. Qed.

Example Clean_dots : GoPath.Clean "a/./b/../../../c//d/" = "../c/d".
Proof. reflexivity. Qed.

Example Clean_rooted : GoPath.Clean "/../a/.." = "/".
Proof. reflexivity. Qed.

(** ** The conversion on an example *)

(** An entry of the app folder goes under [Payload/<folder>/]. *)
Example final_path_example :
  final_path {| Name := "Applications/Foo.app/Info.plist"; Data := Some [];
                DiskPath := ""; Mode := 0x1a4; ModTime := 0; IsDir := false;
                IsLink := false; LinkDest := "" |}
    "Applications/Foo.app/Info.plist" "Applications/Foo.app/" "Foo.app"
  = "Payload/Foo.app/Info.plist".
Proof. reflexivity. Qed.

(** The tree [foo_tar] inside [data.tar.gz]: four entries under
    [Payload/Foo.app/]; [Foo] and [lib.dylib] carry 0755 with type bits
    0x8000, [Foo] is stored and [lib.dylib] deflated. *)
Example round_trip :
  convert foo_world "Foo.deb"
    (ArStream [ArMember "debian-binary" []; ArMember "control.tar.gz" [];
               ArMember "data.tar.gz" []])
  = {| error := None;
       ipa := Some ("Foo.ipa",
         [ ({| zName := "Payload/Foo.app/"; zMethod := Store; Modified := 0;
               ExternalAttrs := 0x41ED0000 |}, []);
           ({| zName := "Payload/Foo.app/Foo"; zMethod := Store; Modified := 0;
               ExternalAttrs := 0x81ED0000 |}, String.list_byte_of_string "MACHO");
           ({| zName := "Payload/Foo.app/lib.dylib"; zMethod := Deflate;
               Modified := 0; ExternalAttrs := 0x81ED0000 |},
            String.list_byte_of_string "DYLIB");
           ({| zName := "Payload/Foo.app/Info.plist"; zMethod := Deflate;
               Modified := 0; ExternalAttrs := 0x81A40000 |},
            String.list_byte_of_string "<plist/>") ]) |}.
Proof. vm_compute. reflexivity. Qed.

(** Without any [.app/] path the run fails before the output exists. *)
Example no_app_root :
  convert (unix_world [entry "usr/bin/tool" TypeReg 0x1ed "ELF"] None) "tool.deb"
    (ArStream [ArMember "data.tar.xz" []])
  = failed ErrUnsupportedApp.
Proof. vm_compute. reflexivity. Qed.

(** ** Permission algebra *)

Lemma land_low9 (m : Z) : Z.land (wrap_u32 m) o777 = Z.land m o777.
Proof.
  unfold wrap_u32, o777. change 0x1ff with (Z.ones 9).
  rewrite !Z.land_ones by lia.
  change (2 ^ 32) with (2 ^ 9 * 2 ^ 23).
  rewrite Z.rem_mul_r by lia.
  rewrite Z.mul_comm, Z.mod_add by lia. apply Z.mod_mod. lia.
Qed.

Lemma land_o777_range (m : Z) : 0 <= Z.land m o777 < 512.
Proof.
  unfold o777. change 0x1ff with (Z.ones 9). rewrite Z.land_ones by lia.
  apply Z.mod_pos_bound. lia.
Qed.

(** C1, as amended: the triple (typeBits, permBits, method) of every entry is
    the table's value at the entry's kind, the low nine bits of its source
    mode, its main-executable status and its output path: a Symlink gets
    (0xA000, 0777, Store); a Directory (0x4000, mode & 0777 if nonzero else
    0755, Store); a Regular file whose output base name is the executable
    name (0x8000, 0755, Store); a Regular file whose output path ends in
    .dylib or contains /bin/ (0x8000, 0755, Deflate); any other Regular file
    (0x8000, mode & 0777 if nonzero else 0644, Deflate). *)
Theorem permission_algebra (vf : VirtualFile) (finalPath executableName : string) :
  fix_triple vf finalPath executableName =
  perm_table (kind_of vf) (Z.land (Mode vf) o777)
    (is_main_executable finalPath executableName) finalPath.
Proof.
  unfold fix_triple, permission_fix, perm_table, kind_of, is_main_executable.
  rewrite land_low9.
  destruct (IsLink vf); [done|]. destruct (IsDir vf); [done|].
  destruct (String.eqb (GoPath.Base finalPath) executableName); [done|].
  cbn [orb].
  by destruct (HasSuffix finalPath ".dylib" || Contains finalPath "/bin/").
Qed.

(** C1, as stated, fails: a regular file with the setuid bit (mode 04755)
    is written with permission bits 0755, not with its source mode. *)
Lemma permission_algebra_source_mode_counterexample :
  let vf := {| Name := "Foo.app/helper"; Data := Some []; DiskPath := "";
               Mode := 0x9ed; ModTime := 0; IsDir := false; IsLink := false;
               LinkDest := "" |} in
  fix_triple vf "Payload/Foo.app/helper" "Foo" = (0x8000, o755, Deflate) /\
  perm_table (kind_of vf) (Mode vf)
    (is_main_executable "Payload/Foo.app/helper" "Foo") "Payload/Foo.app/helper"
  = (0x8000, 0x9ed, Deflate) /\
  fix_triple vf "Payload/Foo.app/helper" "Foo" <>
  perm_table (kind_of vf) (Mode vf)
    (is_main_executable "Payload/Foo.app/helper" "Foo") "Payload/Foo.app/helper".
Proof. cbv zeta. split; [reflexivity|]. split; [reflexivity|]. discriminate. Qed.

(** ** External attributes *)

Lemma fix_triple_bounds (vf : VirtualFile) (finalPath executableName : string) :
  let '(t, p, _) := fix_triple vf finalPath executableName in
  (t = 0xA000 \/ t = 0x4000 \/ t = 0x8000) /\ 0 <= p < 512.
Proof.
  unfold fix_triple, permission_fix. rewrite land_low9.
  pose proof (land_o777_range (Mode vf)) as Hr.
  unfold o777, o755, o644 in *.
  destruct (IsLink vf); [split; [auto|lia]|].
  destruct (IsDir vf).
  - destruct (Z.eqb_spec (Z.land (Mode vf) 0x1ff) 0); split; auto; lia.
  - destruct (_ || _ || _); [split; [auto|lia]|].
    destruct (Z.eqb_spec (Z.land (Mode vf) 0x1ff) 0); split; auto; lia.
Qed.

Lemma lor_below_2_16 (t p : Z) :
  0 <= t < 2 ^ 16 -> 0 <= p < 2 ^ 16 -> 0 <= Z.lor t p < 2 ^ 16.
Proof.
  intros Ht Hp. split; [apply Z.lor_nonneg; lia|].
  destruct (Z.eq_dec t 0) as [->|Ht0]; [rewrite Z.lor_0_l; lia|].
  destruct (Z.eq_dec p 0) as [->|Hp0]; [rewrite Z.lor_0_r; lia|].
  assert (0 < Z.lor t p) as Hpos.
  { pose proof (proj2 (Z.lor_nonneg t p)).
    pose proof (proj1 (Z.lor_eq_0_iff t p)). lia. }
  apply Z.log2_lt_pow2; [done|].
  rewrite Z.log2_lor by lia.
  apply Z.max_lub_lt; apply Z.log2_lt_pow2; lia.
Qed.

Lemma make_header_name (vf : VirtualFile) (finalPath executableName : string) :
  zName (make_header vf finalPath executableName) = finalPath.
Proof.
  unfold make_header.
  by destruct (permission_fix vf finalPath executableName) as [[m t] p].
Qed.

(** C2: the external attributes of every emitted entry are exactly
    [(typeBits | permBits) << 16] for the type and permission bits of the
    permission algebra, for all three kinds; the 32-bit field holds the
    value without truncation. *)
Theorem external_attrs_exact (W : World) (disk : gmap string (list byte))
    (cleanAppPrefix appNameFolder executableName : string) (vf : VirtualFile) :
  let entry := emit W disk cleanAppPrefix appNameFolder executableName vf in
  let '(typeBits, permBits, _) :=
    fix_triple vf (zName (fst entry)) executableName in
  ExternalAttrs (fst entry) = Z.shiftl (Z.lor typeBits permBits) 16 /\
  0 <= ExternalAttrs (fst entry) < 2 ^ 32.
Proof.
  cbv zeta. unfold emit. cbn [fst].
  set (fp := final_path vf _ cleanAppPrefix appNameFolder).
  rewrite make_header_name.
  pose proof (fix_triple_bounds vf fp executableName) as Hb.
  unfold make_header, fix_triple in *.
  destruct (permission_fix vf fp executableName) as [[m t] p].
  cbn [ExternalAttrs]. destruct Hb as [Ht Hp].
  assert (0 <= Z.lor t p < 2 ^ 16) as Hl by (apply lor_below_2_16; lia).
  unfold external_attrs, wrap_u32.
  rewrite (Z.mod_small p) by lia.
  rewrite Z.shiftl_mul_pow2 by lia.
  rewrite Z.mod_small by lia. lia.
Qed.

(** ** Placement in memory or on disk *)

Lemma spill_path_inj (W : World) (tempDir : string) (j k : Z) :
  spill_path W tempDir j = spill_path W tempDir k -> j = k.
Proof.
  unfold spill_path, Filepath.Join. intros H.
  apply (inj (String.app tempDir)) in H. injection H as H.
  by apply (inj pretty) in H.
Qed.

Lemma spill_path_nonempty (W : World) (tempDir : string) (k : Z) :
  spill_path W tempDir k <> "".
Proof. unfold spill_path, Filepath.Join. by destruct tempDir. Qed.

Lemma engine_inv_0 (W : World) (tempDir : string) : engine_inv W tempDir engine0.
Proof.
  unfold engine_inv, engine0, MaxMemoryUsage. cbn.
  split; [lia|]. split; [lia|]. split.
  - intros vf Hvf. by apply elem_of_nil in Hvf.
  - intros p [x Hx]. by rewrite lookup_empty in Hx.
Qed.

Lemma capture_plist_files st name data : files (capture_plist st name data) = files st.
Proof. unfold capture_plist. by case_match. Qed.

Lemma capture_plist_data st name data :
  infoPlistData (capture_plist st name data) =
  if HasSuffix name "Info.plist" && (0 <? Z.of_nat (length data))
  then data else infoPlistData st.
Proof. unfold capture_plist. by case_match. Qed.

Lemma engine_inv_fields W tempDir (st st' : Engine) :
  files st' = files st -> currentRamUsage st' = currentRamUsage st ->
  spillCount st' = spillCount st -> disk st' = disk st ->
  engine_inv W tempDir st -> engine_inv W tempDir st'.
Proof. unfold engine_inv. by intros -> -> -> ->. Qed.

Lemma engine_inv_append W tempDir (st : Engine) (vf : VirtualFile) :
  DiskPath vf = "" -> engine_inv W tempDir st ->
  engine_inv W tempDir (append_file st vf).
Proof.
  intros Hvf (Hram & Hsc & Hfiles & Hdisk). unfold engine_inv, append_file.
  cbn [files currentRamUsage spillCount disk].
  split; [done|]. split; [done|]. split; [|done].
  intros vf' [Hin| ->%list_elem_of_singleton]%elem_of_app; [by apply Hfiles|done].
Qed.

(** The invariant passes through every step whose counters stay within
    [int64] and whose regular entry, when read without error, has the
    length its header declares. *)
Lemma extract_step_inv W tempDir st header body bodyErr st' :
  engine_inv W tempDir st ->
  0 <= Size header ->
  currentRamUsage st + Size header <= max_int64 ->
  spillCount st < max_int64 ->
  (bodyErr = false -> Z.of_nat (length body) = Size header) ->
  extract_step W tempDir st header body bodyErr = Ok st' ->
  engine_inv W tempDir st' /\ spillCount st <= spillCount st' <= spillCount st + 1.
Proof.
  intros Hinv Hsize Hno Hcount Hlen. pose proof Hinv as (Hram & Hsc & Hfiles & Hdisk).
  unfold extract_step.
  destruct (Ascii.eqb (Typeflag header) TypeSymlink).
  { intros [= <-]. split; [|cbn; lia].
    apply engine_inv_append; [done|]. by apply (engine_inv_fields _ _ st). }
  destruct (Ascii.eqb (Typeflag header) TypeReg).
  - unfold place.
    cbn [currentRamUsage spillCount files disk appDirPrefix infoPlistData
         fileCount totalSize Name Data DiskPath Mode ModTime IsDir IsLink LinkDest].
    rewrite (wrap64_id (currentRamUsage st + Size header))
      by (unfold min_int64; lia).
    destruct (Z.ltb_spec (currentRamUsage st + Size header) MaxMemoryUsage) as [Hlt|Hge].
    + destruct bodyErr; [done|]. cbn [ReadAll]. specialize (Hlen eq_refl).
      rewrite wrap64_id by (unfold min_int64, max_int64 in *; lia).
      intros [= <-]. unfold append_file. rewrite capture_plist_files.
      unfold capture_plist, engine_inv.
      destruct (HasSuffix (hName header) "Info.plist" && _);
        cbn [files currentRamUsage spillCount disk]; (split; [|lia]).
      all: split_and!; try done; try lia.
      all: intros vf [Hin| ->%list_elem_of_singleton]%elem_of_app;
        [by apply Hfiles|done].
    + rewrite wrap64_id by (unfold min_int64, max_int64 in *; lia).
      cbv zeta. destruct (os_Create W _); [|done].
      intros [= <-]. unfold append_file. rewrite capture_plist_files.
      unfold capture_plist, engine_inv. rewrite andb_false_r.
      cbn [files currentRamUsage spillCount disk]. split; [|lia].
      split_and!; try done; try lia.
      * intros vf [Hin| ->%list_elem_of_singleton]%elem_of_app Hne.
        -- destruct (Hfiles vf Hin Hne) as (k & Hk & Hp).
           exists k. split; [lia|done].
        -- exists (spillCount st + 1). split; [lia|done].
      * intros p [x Hx].
        destruct (decide (spill_path W tempDir (spillCount st + 1) = p)) as [<-|Hne].
        -- exists (spillCount st + 1). split; [lia|done].
        -- rewrite lookup_insert_ne in Hx by done.
           destruct (Hdisk p) as (k & Hk & Hp); [by exists x|].
           exists k. split; [lia|done].
  - destruct (Ascii.eqb (Typeflag header) TypeDir); intros [= <-];
      (split; [|cbn; lia]).
    + apply engine_inv_append; [done|]. by apply (engine_inv_fields _ _ st).
    + by apply (engine_inv_fields _ _ st).
Qed.

(** Along a stream as a tar reader delivers it, the invariant holds from
    the first header to the last. *)
Lemma extract_loop_inv W tempDir (stream : list TarNext) (st st' : Engine) :
  Forall well_sized stream ->
  engine_inv W tempDir st ->
  spillCount st + Z.of_nat (length stream) <= max_int64 ->
  extract_loop W tempDir st stream = Ok st' ->
  engine_inv W tempDir st'.
Proof.
  intros Hall. revert st.
  induction Hall as [|[|header body bodyErr] stream Hx _ IH]; intros st Hinv Hn; cbn.
  - by intros [= <-].
  - done.
  - destruct (extract_step _ _ _ _ _ _) as [st1|] eqn:Hstep; [|done].
    destruct Hx as (Hsize & Hlen). pose proof Hinv as (Hram & Hsc & _).
    cbn [length] in Hn.
    assert (engine_inv W tempDir st1 /\
            spillCount st <= spillCount st1 <= spillCount st + 1) as (Hinv1 & Hs1).
    { apply (extract_step_inv W tempDir st header body bodyErr); try done.
      - lia.
      - unfold max_int64 in *. lia.
      - unfold max_int64 in *. lia. }
    intros Hloop. apply (IH st1); [done|lia|done].
Qed.

(** X16: a regular entry whose declared size is not negative and keeps
    [currentRamUsage + Size] within [int64], taken in a state of the loop
    with [spillCount] below the largest [int64], is placed by the single
    test [currentRamUsage + Size < MaxMemoryUsage] on the counters of its
    turn. When the test holds and the read succeeds (giving the declared
    number of bytes) the entry is read whole into [Data], no spill path is
    set and [currentRamUsage] grows by the length read; a failed read ends
    the run. Otherwise [Data] stays nil, the file [spill_<n>], a path no
    earlier entry has and no earlier file had, is created and recorded in
    [DiskPath], and it holds the bytes the copy wrote: all that the entry
    delivered unless a write failed, which goes unnoticed. A spill file
    that cannot be created ends the run. *)
Theorem ram_or_spill (W : World) (tempDir : string) (st : Engine)
    (header : TarHeader) (body : list byte) (bodyErr : bool) :
  engine_inv W tempDir st ->
  Typeflag header = TypeReg ->
  0 <= Size header ->
  currentRamUsage st + Size header <= max_int64 ->
  spillCount st < max_int64 ->
  (bodyErr = false -> Z.of_nat (length body) = Size header) ->
  if currentRamUsage st + Size header <? MaxMemoryUsage then
    if bodyErr then extract_step W tempDir st header body bodyErr = Err ErrReadAll
    else
      exists st' vf,
        extract_step W tempDir st header body bodyErr = Ok st' /\
        files st' = files st ++ [vf] /\
        Data vf = Some body /\ DiskPath vf = "" /\
        currentRamUsage st' = currentRamUsage st + Z.of_nat (length body) /\
        spillCount st' = spillCount st /\ disk st' = disk st
  else
    let tempPath := spill_path W tempDir (spillCount st + 1) in
    if os_Create W tempPath then
      exists st' vf,
        extract_step W tempDir st header body bodyErr = Ok st' /\
        files st' = files st ++ [vf] /\
        Data vf = None /\ DiskPath vf = tempPath /\ tempPath <> "" /\
        (forall vf', vf' ∈ files st -> DiskPath vf' <> tempPath) /\
        disk st !! tempPath = None /\
        disk st' =
          <[tempPath := take (file_Write W tempPath body) body]> (disk st) /\
        (length body <= file_Write W tempPath body ->
         disk st' !! tempPath = Some body)%nat /\
        spillCount st' = spillCount st + 1 /\
        currentRamUsage st' = currentRamUsage st
    else extract_step W tempDir st header body bodyErr = Err ErrSpillCreate.
Proof.
  intros (Hram & Hsc & Hfiles & Hdisk) Hreg Hsize Hno Hcount Hlen.
  assert (wrap64 (currentRamUsage st + Size header)
          = currentRamUsage st + Size header) as Hw.
  { apply wrap64_id. unfold min_int64. lia. }
  unfold extract_step. rewrite Hreg.
  change (Ascii.eqb TypeReg TypeSymlink) with false.
  change (Ascii.eqb TypeReg TypeReg) with true.
  cbv iota. unfold place.
  cbn [currentRamUsage spillCount files disk appDirPrefix infoPlistData
       fileCount totalSize Name Data DiskPath Mode ModTime IsDir IsLink LinkDest].
  rewrite Hw.
  destruct (Z.ltb_spec (currentRamUsage st + Size header) MaxMemoryUsage) as [Hlt|Hge].
  - (* in memory *)
    destruct bodyErr; [done|]. cbn [ReadAll].
    specialize (Hlen eq_refl).
    rewrite wrap64_id by (unfold min_int64, max_int64 in *; lia).
    eexists _, _. split; [reflexivity|].
    unfold append_file. cbn [files currentRamUsage spillCount disk Data DiskPath].
    rewrite capture_plist_files. unfold capture_plist.
    by destruct (HasSuffix (hName header) "Info.plist" && _).
  - (* on disk *)
    rewrite wrap64_id by (unfold min_int64, max_int64 in *; lia).
    cbv zeta.
    set (tempPath := spill_path W tempDir (spillCount st + 1)).
    destruct (os_Create W tempPath); [|done].
    eexists _, _. split; [reflexivity|].
    unfold append_file. cbn [files currentRamUsage spillCount disk Data DiskPath].
    rewrite capture_plist_files. unfold capture_plist. rewrite andb_false_r.
    cbn [files currentRamUsage spillCount disk].
    split_and!; try done.
    + apply spill_path_nonempty.
    + intros vf' Hin Heq.
      destruct (Hfiles vf' Hin) as (k & Hk & Hp).
      { rewrite Heq. apply spill_path_nonempty. }
      rewrite Hp in Heq. apply spill_path_inj in Heq. lia.
    + destruct (disk st !! tempPath) eqn:Hd; [|done].
      destruct (Hdisk tempPath) as (k & Hk & Hp); [by rewrite Hd|].
      apply spill_path_inj in Hp. lia.
    + intros Hfull. by rewrite lookup_insert_eq, take_ge.
Qed.

Lemma ram_or_spill_witness :
  let header := {| hName := "./Foo.app/Foo"; hMode := 0x1a4; hModTime := 0;
                   Typeflag := TypeReg; Size := 5; Linkname := "" |} in
  let body := String.list_byte_of_string "MACHO" in
  exists st' vf,
    extract_step foo_world "/tmp/ipa-spill1" near_ceiling header body false = Ok st' /\
    files st' = [vf] /\
    Data vf = None /\ DiskPath vf = "/tmp/ipa-spill1/spill_1" /\
    disk st' !! "/tmp/ipa-spill1/spill_1" = Some body.
Proof.
  cbv zeta.
  destruct (ram_or_spill foo_world "/tmp/ipa-spill1" near_ceiling
              {| hName := "./Foo.app/Foo"; hMode := 0x1a4; hModTime := 0;
                 Typeflag := TypeReg; Size := 5; Linkname := "" |}
              (String.list_byte_of_string "MACHO") false)
    as (st' & vf & Hstep & Hfiles & Hdata & Hpath & _ & _ & _ & _ & Hfile & _).
  - unfold engine_inv, near_ceiling, MaxMemoryUsage. cbn.
    split; [lia|]. split; [lia|]. split.
    + intros vf Hvf. by apply elem_of_nil in Hvf.
    + intros p [x Hx]. by rewrite lookup_empty in Hx.
  - reflexivity.
  - cbn. lia.
  - vm_compute. discriminate.
  - vm_compute. reflexivity.
  - intros _. reflexivity.
  - exists st', vf. split; [exact Hstep|]. split; [exact Hfiles|].
    split; [exact Hdata|]. split; [exact Hpath|]. apply Hfile. cbn. lia.
Defined.

(** C3 fails on the code where the sum of line 198 leaves [int64]. After
    a one-byte file [currentRamUsage] is 1; for a header that declares
    2^63-1 bytes the inequality [currentRamUsage + Size < MaxMemoryUsage]
    is false, so the entry should be spilled, as the same header is from
    the initial state. The sum wraps to the least [int64], the test of
    line 198 passes, and the entry is read into memory whatever the stream
    holds for it: a read that breaks off ends the run with the error of
    [io.ReadAll], a read that ends well leaves the bytes in [Data] with no
    spill path and no spill file. *)
Lemma ram_test_overflow :
  exists st,
    extract_loop foo_world "/tmp/ipa-spill1" engine0
      [entry "./Foo.app/a" TypeReg 0x1a4 "x"] = Ok st /\
    currentRamUsage st = 1 /\
    (currentRamUsage st + Size huge_header <? MaxMemoryUsage) = false /\
    wrap64 (currentRamUsage st + Size huge_header) = min_int64 /\
    (forall body,
       extract_step foo_world "/tmp/ipa-spill1" st huge_header body true
       = Err ErrReadAll) /\
    (forall body, exists st' vf,
       extract_step foo_world "/tmp/ipa-spill1" st huge_header body false = Ok st' /\
       files st' = files st ++ [vf] /\
       Data vf = Some body /\ DiskPath vf = "" /\ spillCount st' = 0) /\
    (forall body bodyErr, exists st0 vf,
       extract_step foo_world "/tmp/ipa-spill1" engine0 huge_header body bodyErr
       = Ok st0 /\
       files st0 = [vf] /\ Data vf = None /\
       DiskPath vf = "/tmp/ipa-spill1/spill_1" /\ spillCount st0 = 1).
Proof.
  eexists. split; [vm_compute; reflexivity|].
  split; [reflexivity|]. split; [vm_compute; reflexivity|].
  split; [vm_compute; reflexivity|]. split; [|split].
  - intros body. vm_compute. reflexivity.
  - intros body. unfold extract_step, place.
    cbn [Typeflag Size huge_header currentRamUsage].
    change (Ascii.eqb TypeReg TypeSymlink) with false.
    change (Ascii.eqb TypeReg TypeReg) with true. cbv iota.
    change (wrap64 (1 + max_int64) <? MaxMemoryUsage) with true. cbv iota.
    cbn [ReadAll]. eexists _, _. split; [reflexivity|].
    unfold append_file. cbn [files currentRamUsage spillCount disk Data DiskPath].
    rewrite capture_plist_files. unfold capture_plist.
    by destruct (HasSuffix _ "Info.plist" && _).
  - intros body bodyErr. unfold extract_step, place.
    cbn [Typeflag Size huge_header currentRamUsage engine0].
    change (Ascii.eqb TypeReg TypeSymlink) with false.
    change (Ascii.eqb TypeReg TypeReg) with true. cbv iota.
    change (wrap64 (0 + max_int64) <? MaxMemoryUsage) with false. cbv iota zeta.
    change (os_Create foo_world _) with true. cbv iota.
    eexists _, _. split; [reflexivity|].
    unfold append_file. cbn [files currentRamUsage spillCount disk Data DiskPath].
    rewrite capture_plist_files. unfold capture_plist. rewrite andb_false_r.
    cbn [files spillCount]. by split_and!.
Qed.

(** A write to the spill file that fails after two bytes goes unnoticed:
    the step succeeds, the path is recorded, the file holds two of the five
    bytes, and these two are what the packager takes for the entry. *)
Example short_spill_write_unnoticed :
  exists st' vf,
    extract_step short_write_world "/tmp/ipa-spill1" near_ceiling
      {| hName := "./Foo.app/Foo"; hMode := 0x1a4; hModTime := 0;
         Typeflag := TypeReg; Size := 5; Linkname := "" |}
      (String.list_byte_of_string "MACHO") false = Ok st' /\
    files st' = [vf] /\ DiskPath vf = "/tmp/ipa-spill1/spill_1" /\
    disk st' !! "/tmp/ipa-spill1/spill_1" = Some (String.list_byte_of_string "MA") /\
    entry_body short_write_world (disk st') vf = String.list_byte_of_string "MA".
Proof.
  eexists _, _. split; [vm_compute; reflexivity|].
  split; [reflexivity|]. split; [reflexivity|]. split; by vm_compute.
Qed.

(** The test is made afresh for each entry: below the ceiling by four
    bytes, a five-byte file is spilled and the two-byte file after it is
    still read into memory. *)
Example spill_is_not_sticky :
  let st := {| files := []; currentRamUsage := MaxMemoryUsage - 4; totalSize := 0;
               appDirPrefix := ""; infoPlistData := []; fileCount := 0;
               spillCount := 0; disk := ∅ |} in
  exists st',
    extract_loop foo_world "/tmp/ipa-spill1" st
      [entry "a/five" TypeReg 0x1a4 "12345"; entry "a/two" TypeReg 0x1a4 "12"]
    = Ok st' /\
    map (fun vf => (Data vf, DiskPath vf)) (files st') =
      [(None, "/tmp/ipa-spill1/spill_1");
       (Some (String.list_byte_of_string "12"), "")] /\
    currentRamUsage st' = MaxMemoryUsage - 2.
Proof. cbv zeta. eexists. split; [vm_compute; reflexivity|]. by vm_compute. Qed.

(** ** App-root detection *)

Lemma extract_step_app_root W tempDir st header body bodyErr st' :
  extract_step W tempDir st header body bodyErr = Ok st' ->
  appDirPrefix st' = detect_app_root (appDirPrefix st) (hName header).
Proof.
  unfold extract_step, place, capture_plist, append_file.
  repeat case_match; intros; simplify_eq; done.
Qed.

Lemma extract_loop_app_root W tempDir stream st st' :
  extract_loop W tempDir st stream = Ok st' ->
  appDirPrefix st' = fold_left detect_app_root (header_names stream) (appDirPrefix st).
Proof.
  revert st. induction stream as [|[|header body bodyErr] stream IH]; intros st; cbn.
  - by intros [= ->].
  - done.
  - destruct (extract_step _ _ _ _ _ _) as [st1|] eqn:Hstep; [|done].
    intros Hloop. rewrite (IH _ Hloop).
    by rewrite (extract_step_app_root _ _ _ _ _ _ _ Hstep).
Qed.

Lemma detect_app_root_set (prefix name : string) :
  prefix <> "" -> detect_app_root prefix name = prefix.
Proof.
  unfold detect_app_root. by destruct (String.eqb_spec prefix "").
Qed.

Lemma detect_app_root_absent (name : string) :
  ~ occurs ".app/" name -> detect_app_root "" name = "".
Proof.
  intros Hno. unfold detect_app_root. cbn [String.eqb].
  destruct (Z.eqb_spec (Index name ".app/") (-1)) as [|Hne]; [done|].
  destruct (Index_found name ".app/" _ eq_refl Hne) as (pre & post & Heq & _).
  destruct Hno. by exists pre, post.
Qed.

Lemma detect_app_root_first (name pre : string) :
  before_first ".app/" name pre -> detect_app_root "" name = pre +:+ ".app/".
Proof.
  intros [[post Heq] Hmin]. unfold detect_app_root. cbn [String.eqb].
  destruct (Z.eqb_spec (Index name ".app/") (-1)) as [Hidx|Hne].
  { by destruct (Index_absent _ _ Hidx pre post). }
  destruct (Index_found name ".app/" _ eq_refl Hne) as (pre0 & post0 & Heq0 & Hlen & Hmin0).
  cbn [negb].
  assert (len pre = Index name ".app/") as Hpre.
  { specialize (Hmin _ _ Heq0). specialize (Hmin0 _ _ Heq). lia. }
  replace (Z.to_nat (Index name ".app/" + 5))
    with (String.length (pre +:+ ".app/")).
  - rewrite Heq at 1. rewrite <- app_assoc_s. apply slice_to_app.
  - rewrite app_length_s. unfold len in Hpre. cbn [String.length]. lia.
Qed.

Lemma fold_detect_set (names : list string) (prefix : string) :
  prefix <> "" -> fold_left detect_app_root names prefix = prefix.
Proof.
  intros Hne. induction names as [|n names IH]; [done|]. cbn [fold_left].
  by rewrite detect_app_root_set.
Qed.

(** C5: the app root recorded by the extraction pass is the prefix, up to
    and including the first [.app/], of the first path in traversal order
    that contains [.app/]. Every header counts, whatever its type flag, and
    no later path replaces the prefix once it is set. *)
Theorem app_root_first_match (W : World) (tempDir : string)
    (stream : list TarNext) (st : Engine)
    (earlier later : list string) (name pre : string) :
  extract_loop W tempDir engine0 stream = Ok st ->
  header_names stream = earlier ++ name :: later ->
  (forall n, n ∈ earlier -> ~ occurs ".app/" n) ->
  before_first ".app/" name pre ->
  appDirPrefix st = pre +:+ ".app/".
Proof.
  intros Hloop Hnames Hearlier Hfirst.
  rewrite (extract_loop_app_root _ _ _ _ _ Hloop), Hnames. cbn [appDirPrefix engine0].
  rewrite fold_left_app. cbn [fold_left].
  assert (fold_left detect_app_root earlier "" = "") as ->.
  { clear Hnames. induction earlier as [|n earlier IH]; [done|]. cbn [fold_left].
    rewrite detect_app_root_absent by (apply Hearlier; left).
    apply IH. intros m Hm. apply Hearlier. by right. }
  rewrite (detect_app_root_first _ _ Hfirst).
  apply fold_detect_set. by destruct pre.
Qed.

Lemma app_root_first_match_witness :
  exists st,
    extract_loop foo_world "/tmp/ipa-spill1" engine0
      (entry "usr/share/doc" TypeDir 0x1ed ""
         :: entry "Applications/Foo.app/Foo" TypeLink 0x1ed ""
         :: entry "./Bar.app/Sub.app/Bar" TypeReg 0x1ed "MACHO" :: []) = Ok st /\
    appDirPrefix st = "Applications/Foo.app/".
Proof.
  eexists. split; [vm_compute; reflexivity|].
  apply (app_root_first_match foo_world "/tmp/ipa-spill1"
           (entry "usr/share/doc" TypeDir 0x1ed ""
              :: entry "Applications/Foo.app/Foo" TypeLink 0x1ed ""
              :: entry "./Bar.app/Sub.app/Bar" TypeReg 0x1ed "MACHO" :: [])
           _ ["usr/share/doc"] ["./Bar.app/Sub.app/Bar"]
           "Applications/Foo.app/Foo" "Applications/Foo").
  - vm_compute; reflexivity.
  - reflexivity.
  - intros n ->%list_elem_of_singleton (a & b & Heq).
    assert (Index "usr/share/doc" ".app/" = -1) as Hidx by reflexivity.
    exact (Index_absent _ _ Hidx a b Heq).
  - split; [by exists "Foo"|].
    intros a b Heq.
    assert (Index "Applications/Foo.app/Foo" ".app/" = 16) as Hidx by reflexivity.
    destruct (Index_found _ _ _ Hidx ltac:(lia)) as (p0 & q0 & _ & _ & Hmin).
    specialize (Hmin a b Heq). change (len "Applications/Foo") with 16. lia.
Defined.

(** ** What one step adds to the store *)

Lemma captured_spec (vf : VirtualFile) (d : list byte) :
  captured vf = Some d <-> qualifies vf d.
Proof.
  unfold captured, qualifies.
  destruct (HasSuffix (Name vf) "Info.plist").
  - destruct (Data vf) as [[|b data]|]; split.
    all: try (intros [= <-]; by split_and!).
    all: try done.
    all: try (intros (_ & [= <-] & Hne); done).
  - split; [done | by intros (? & _)].
Qed.

(** A step either skips the entry or appends its stored form, and the
    captured descriptor changes only to what that form offers. *)
Lemma extract_step_store W tempDir st header body bodyErr st' :
  extract_step W tempDir st header body bodyErr = Ok st' ->
  (is_kept header = false /\ files st' = files st /\
   infoPlistData st' = infoPlistData st) \/
  (is_kept header = true /\
   exists vf, files st' = files st ++ [vf] /\ classified vf header /\
     infoPlistData st' = default (infoPlistData st) (captured vf) /\
     (Data vf = None \/ DiskPath vf = "") /\
     (Typeflag header = TypeReg ->
      (exists data, Data vf = Some data /\ DiskPath vf = "") \/
      (Data vf = None /\ DiskPath vf <> ""))).
Proof.
  unfold extract_step, is_kept.
  destruct (Ascii.eqb_spec (Typeflag header) TypeSymlink) as [Hs|Hs].
  { intros [= <-]. right. split; [done|]. eexists. split; [reflexivity|].
    unfold classified, captured. cbn. rewrite !Hs.
    destruct (HasSuffix (hName header) "Info.plist");
      repeat split; try done; by left. }
  destruct (Ascii.eqb_spec (Typeflag header) TypeReg) as [Hr|Hr].
  - unfold place.
    cbn [currentRamUsage spillCount files disk appDirPrefix infoPlistData
         fileCount totalSize Name Data DiskPath Mode ModTime IsDir IsLink LinkDest].
    destruct (wrap64 _ <? MaxMemoryUsage).
    + destruct bodyErr; [done|]. cbn [ReadAll]. intros [= <-].
      right. split; [done|]. eexists. split.
      { unfold append_file. cbn [files]. by rewrite capture_plist_files. }
      unfold classified, captured, append_file. cbn.
      rewrite capture_plist_data. cbn [infoPlistData]. rewrite !Hr.
      split_and!; try done; try (by right).
      * destruct (HasSuffix (hName header) "Info.plist"); [|done].
        by destruct body.
      * intros _. left. by eexists.
    + destruct (os_Create W _); [|done]. intros [= <-].
      right. split; [done|]. eexists. split.
      { unfold append_file. cbn [files]. by rewrite capture_plist_files. }
      unfold classified, captured, append_file. cbn.
      rewrite capture_plist_data, andb_false_r. cbn [infoPlistData]. rewrite !Hr.
      split_and!; try done; try (by left).
      * by destruct (HasSuffix (hName header) "Info.plist").
      * intros _. right. split; [done|]. apply spill_path_nonempty.
  - destruct (Ascii.eqb_spec (Typeflag header) TypeDir) as [Hd|Hd].
    + intros [= <-]. right. split; [done|]. eexists. split; [reflexivity|].
      unfold classified, captured. cbn. rewrite !Hd.
      destruct (HasSuffix (hName header) "Info.plist");
        split_and!; try done; by left.
    + intros [= <-]. by left.
Qed.

(** ** Capture of the descriptor *)

(** C4, as amended: a regular entry whose path ends in [Info.plist] has its
    bytes captured for the metadata parser when it is placed in memory and
    has at least one byte; when it is spilled to disk, or is empty, the
    capture is skipped and the earlier capture stays. *)
Theorem plist_capture (W : World) (tempDir : string) (st st' : Engine)
    (header : TarHeader) (body : list byte) (bodyErr : bool) :
  Typeflag header = TypeReg ->
  HasSuffix (hName header) "Info.plist" = true ->
  extract_step W tempDir st header body bodyErr = Ok st' ->
  exists vf,
    files st' = files st ++ [vf] /\
    match Data vf with
    | Some (b :: data) => DiskPath vf = "" /\ infoPlistData st' = b :: data
    | Some [] => DiskPath vf = "" /\ infoPlistData st' = infoPlistData st
    | None => DiskPath vf <> "" /\ infoPlistData st' = infoPlistData st
    end.
Proof.
  intros Hreg Hsuf Hstep.
  destruct (extract_step_store _ _ _ _ _ _ _ Hstep)
    as [(Hk & _)|(_ & vf & Hfiles & Hcl & Hinfo & _ & Hplace)].
  { unfold is_kept in Hk. rewrite Hreg in Hk. done. }
  exists vf. split; [done|].
  destruct Hcl as (Hname & _). unfold captured in Hinfo.
  rewrite Hname, Hsuf in Hinfo.
  destruct (Hplace Hreg) as [(data & Hd & Hp)|(Hd & Hp)]; rewrite Hd in Hinfo |- *.
  - by destruct data.
  - done.
Qed.

Lemma plist_capture_witness :
  exists st' vf,
    extract_step foo_world "/tmp/ipa-spill1" engine0
      {| hName := "./Foo.app/Info.plist"; hMode := 0x1a4; hModTime := 0;
         Typeflag := TypeReg; Size := 8; Linkname := "" |}
      (String.list_byte_of_string "<plist/>") false = Ok st' /\
    files st' = [vf] /\ DiskPath vf = "" /\
    infoPlistData st' = String.list_byte_of_string "<plist/>".
Proof.
  destruct (plist_capture foo_world "/tmp/ipa-spill1" engine0 _
              {| hName := "./Foo.app/Info.plist"; hMode := 0x1a4; hModTime := 0;
                 Typeflag := TypeReg; Size := 8; Linkname := "" |}
              (String.list_byte_of_string "<plist/>") false
              eq_refl eq_refl eq_refl) as (vf & Hfiles & Hcap).
  eexists _, vf. split; [reflexivity|]. split; [exact Hfiles|].
  cbn in Hfiles. injection Hfiles as <-. exact Hcap.
Defined.

(** C4, as stated, fails: an empty [Info.plist] is placed in memory, yet
    what the parser will get is still the descriptor captured before it. *)
Lemma empty_plist_in_ram_not_captured :
  exists st st' vf,
    extract_loop foo_world "/tmp/ipa-spill1" engine0
      [entry "./Foo.app/Info.plist" TypeReg 0x1a4 "<plist/>"] = Ok st /\
    extract_step foo_world "/tmp/ipa-spill1" st
      {| hName := "./Foo.app/en.lproj/Info.plist"; hMode := 0x1a4; hModTime := 0;
         Typeflag := TypeReg; Size := 0; Linkname := "" |} [] false = Ok st' /\
    last (files st') = Some vf /\
    Name vf = "./Foo.app/en.lproj/Info.plist" /\
    Data vf = Some [] /\ DiskPath vf = "" /\
    infoPlistData st' = String.list_byte_of_string "<plist/>" /\
    infoPlistData st' <> default [] (Data vf).
Proof.
  eexists _, _, _. split; [vm_compute; reflexivity|].
  split; [vm_compute; reflexivity|].
  split; [reflexivity|]. do 4 (split; [reflexivity|]). discriminate.
Qed.

Lemma extract_loop_captured W tempDir stream st st' :
  extract_loop W tempDir st stream = Ok st' ->
  infoPlistData st = default [] (last (omap captured (files st))) ->
  infoPlistData st' = default [] (last (omap captured (files st'))).
Proof.
  revert st. induction stream as [|[|header body bodyErr] stream IH]; intros st; cbn.
  - by intros [= ->].
  - done.
  - destruct (extract_step _ _ _ _ _ _) as [st1|] eqn:Hstep; [|done].
    intros Hloop Hinv. apply (IH _ Hloop).
    destruct (extract_step_store _ _ _ _ _ _ _ Hstep)
      as [(_ & -> & ->)|(_ & vf & -> & _ & -> & _)]; [done|].
    rewrite omap_app. cbn. destruct (captured vf) as [d|]; cbn.
    + by rewrite last_snoc.
    + by rewrite app_nil_r.
Qed.

(** C9: among the stored entries whose path ends in [Info.plist], the bytes
    handed to the metadata parser are those of the last one, in traversal
    order, that is held in memory with a non-empty buffer: every such entry
    overwrites the capture, and a spilled or empty one never does. *)
Theorem last_plist_in_ram_wins (W : World) (tempDir : string)
    (stream : list TarNext) (st : Engine)
    (before after : list VirtualFile) (vf : VirtualFile) (d : list byte) :
  extract_loop W tempDir engine0 stream = Ok st ->
  files st = before ++ vf :: after ->
  qualifies vf d ->
  (forall vf' d', vf' ∈ after -> ~ qualifies vf' d') ->
  infoPlistData st = d.
Proof.
  intros Hloop Hfiles Hq Hafter.
  rewrite (extract_loop_captured _ _ _ _ _ Hloop) by done.
  rewrite Hfiles, omap_app. cbn [omap list_omap].
  apply captured_spec in Hq. rewrite Hq.
  assert (omap captured after = []) as ->.
  { clear Hfiles. induction after as [|vf' after IH]; [done|]. cbn.
    destruct (captured vf') as [d'|] eqn:Hc.
    - apply captured_spec in Hc. destruct (Hafter vf' d'); [left|done].
    - apply IH. intros ????. eapply Hafter; [by right|done]. }
  cbn. by rewrite last_snoc.
Qed.

Lemma last_plist_in_ram_wins_witness :
  exists st,
    extract_loop foo_world "/tmp/ipa-spill1" engine0 plists_tar = Ok st /\
    infoPlistData st = String.list_byte_of_string "<second/>".
Proof.
  eexists. split; [vm_compute; reflexivity|].
  eapply (last_plist_in_ram_wins foo_world "/tmp/ipa-spill1" plists_tar _
            [_] [_] _ (String.list_byte_of_string "<second/>")).
  - vm_compute; reflexivity.
  - reflexivity.
  - split; [reflexivity|]. split; [reflexivity|]. discriminate.
  - intros vf' d' ->%list_elem_of_singleton (_ & Hd & Hne).
    cbn in Hd. congruence.
Defined.

(** ** Order of the output *)

Lemma extract_loop_files W tempDir stream st st' :
  extract_loop W tempDir st stream = Ok st' ->
  exists new, files st' = files st ++ new /\ Forall2 classified new (kept_headers stream).
Proof.
  revert st. induction stream as [|[|header body bodyErr] stream IH]; intros st; cbn.
  - intros [= ->]. exists []. by rewrite app_nil_r.
  - done.
  - destruct (extract_step _ _ _ _ _ _) as [st1|] eqn:Hstep; [|done].
    intros Hloop. destruct (IH _ Hloop) as (new & Hnew & Hall).
    destruct (extract_step_store _ _ _ _ _ _ _ Hstep)
      as [(Hk & Hf & _)|(Hk & vf & Hf & Hcl & _)]; rewrite Hk.
    + exists new. by rewrite Hnew, Hf.
    + exists (vf :: new). split; [|by constructor].
      by rewrite Hnew, Hf, <- app_assoc.
Qed.

Lemma pack_loop_spec W disk cleanAppPrefix appNameFolder executableName
    (files : list VirtualFile) (written out : list ZipEntry) (err : option Error) :
  pack_loop W disk cleanAppPrefix appNameFolder executableName files written
    = (err, out) ->
  let all := map (emit W disk cleanAppPrefix appNameFolder executableName)
                 (List.filter (in_app W cleanAppPrefix) files) in
  exists added, out = written ++ added /\ added `prefix_of` all /\
                (err = None -> added = all).
Proof.
  revert written. induction files as [|vf files IH]; intros written; cbn.
  - intros [= <- <-]. exists []. by rewrite app_nil_r.
  - destruct (in_app W cleanAppPrefix vf); cbn [negb]; [|apply IH].
    destruct (zip_CreateHeader W _).
    + intros Hrest. destruct (IH _ Hrest) as (added & -> & Hpre & Hall).
      exists (emit W disk cleanAppPrefix appNameFolder executableName vf :: added).
      split; [by rewrite <- app_assoc|]. split; [by apply prefix_cons|].
      intros He. by rewrite (Hall He).
    + intros [= <- <-]. exists []. rewrite app_nil_r.
      split; [done|]. split; [apply prefix_nil|done].
Qed.

(** C8: the entries written to the output archive are the stored entries
    that pass the app-root filter, in the order of the store, which is the
    order in which the single extraction pass met their headers; nothing is
    sorted or grouped. A run that stops on a zip error has written a prefix
    of that sequence. *)
Theorem output_order (W : World) (debPath : string) (members : list ArNext)
    (path : string) (written : list ZipEntry) :
  ipa (convert W debPath (ArStream members)) = Some (path, written) ->
  exists dataTar tempDir st,
    find_data W members = Ok dataTar /\
    os_MkdirTemp W = Some tempDir /\
    extract_loop W tempDir engine0 dataTar = Ok st /\
    Forall2 classified (files st) (kept_headers dataTar) /\
    written `prefix_of` selected W st /\
    (error (convert W debPath (ArStream members)) = None ->
     written = selected W st).
Proof.
  unfold convert.
  destruct (find_data W members) as [dataTar|] eqn:Hfind; [|done].
  destruct (os_MkdirTemp W) as [tempDir|] eqn:Hdir; [|done].
  destruct (extract_loop W tempDir engine0 dataTar) as [st|] eqn:Hloop; [|done].
  destruct (String.eqb (appDirPrefix st) ""); [done|].
  destruct (os_Create W (ipa_path debPath)); [|done].
  destruct (pack_loop _ _ _ _ _ _ _) as [err out] eqn:Hpack.
  cbn [ipa error]. intros [= <- <-].
  exists dataTar, tempDir, st. do 3 (split; [done|]).
  destruct (extract_loop_files _ _ _ _ _ Hloop) as (new & Hnew & Hall).
  cbn in Hnew. subst new. split; [done|].
  destruct (pack_loop_spec _ _ _ _ _ _ _ _ _ Hpack) as (added & -> & Hpre & Hdone).
  by cbn.
Qed.

Lemma output_order_witness :
  exists st written,
    extract_loop foo_world "/tmp/ipa-spill1" engine0 foo_tar = Ok st /\
    ipa (convert foo_world "Foo.deb" (ArStream [ArMember "data.tar.gz" []]))
    = Some ("Foo.ipa", written) /\
    written = selected foo_world st /\
    map (fun e => zName (fst e)) written =
      ["Payload/Foo.app/"; "Payload/Foo.app/Foo"; "Payload/Foo.app/lib.dylib";
       "Payload/Foo.app/Info.plist"].
Proof.
  set (c := convert foo_world "Foo.deb" (ArStream [ArMember "data.tar.gz" []])).
  assert (exists written, ipa c = Some ("Foo.ipa", written) /\ error c = None /\
            map (fun e => zName (fst e)) written =
              ["Payload/Foo.app/"; "Payload/Foo.app/Foo";
               "Payload/Foo.app/lib.dylib"; "Payload/Foo.app/Info.plist"])
    as (written & Hipa & Herr & Hnames).
  { eexists. split; [vm_compute; reflexivity|].
    split; vm_compute; reflexivity. }
  destruct (output_order foo_world "Foo.deb" [ArMember "data.tar.gz" []]
              "Foo.ipa" written Hipa)
    as (dataTar & tempDir & st & Hfind & Hdir & Hloop & _ & _ & Hall).
  cbn in Hfind. injection Hfind as <-. cbn in Hdir. injection Hdir as <-.
  exists st, written. split; [exact Hloop|]. split; [exact Hipa|].
  split; [exact (Hall Herr) | exact Hnames].
Defined.

(** ** Compression dispatch *)

Lemma suffix_of_suffix (s a b : string) :
  HasSuffix s a = true -> HasSuffix s b = true ->
  (String.length a <= String.length b)%nat -> HasSuffix b a = true.
Proof.
  intros [p Hp]%HasSuffix_spec [q Hq]%HasSuffix_spec Hlen.
  apply HasSuffix_spec. subst s. revert q Hq.
  induction p as [|c p IH]; intros q Hq.
  - cbn in Hq. exists "". destruct q as [|d q]; [done|].
    apply (f_equal String.length) in Hq. cbn in Hq.
    rewrite app_length_s in Hq. lia.
  - destruct q as [|d q].
    + cbn in Hq. exists (String c p). by rewrite <- Hq.
    + cbn in Hq. injection Hq as _ Hq. by apply (IH q).
Qed.

Lemma suffix_clash_short (s a b : string) :
  HasSuffix s a = true -> (String.length a <= String.length b)%nat ->
  HasSuffix b a = false -> HasSuffix s b = false.
Proof.
  intros Ha Hlen Hba. destruct (HasSuffix s b) eqn:Hb; [|done].
  by rewrite (suffix_of_suffix s a b) in Hba.
Qed.

Lemma suffix_clash_long (s a b : string) :
  HasSuffix s a = true -> (String.length b <= String.length a)%nat ->
  HasSuffix a b = false -> HasSuffix s b = false.
Proof.
  intros Ha Hlen Hab. destruct (HasSuffix s b) eqn:Hb; [|done].
  by rewrite (suffix_of_suffix s b a) in Hab.
Qed.

Lemma find_data_passed_over W (pre : list ArNext) (rest : list ArNext) :
  Forall passed_over pre -> find_data W (pre ++ rest) = find_data W rest.
Proof.
  induction 1 as [|m pre (name & content & -> & Hn) _ IH]; [done|].
  rewrite <- app_comm_cons. cbn [find_data]. by rewrite Hn.
Qed.

(** C6: the payload member is dispatched on its exact suffix: [.gz],
    [.lzma], [.bzip2] and [.xz] each open their own decoder. For a payload
    member whose name ends in none of the four, whatever else it ends in,
    the conversion fails with the unsupported-compression error, and no
    output file exists: the failure comes before the file is created. *)
Theorem compression_dispatch (W : World) :
  (forall p content,
     open_payload W (p +:+ ".gz") content = opened (gzip_NewReader W content) /\
     open_payload W (p +:+ ".lzma") content = opened (lzma_NewReader W content) /\
     open_payload W (p +:+ ".bzip2") content = Ok (bzip2_NewReader W content) /\
     open_payload W (p +:+ ".xz") content = opened (xz_NewReader W content)) /\
  (forall debPath pre name content post,
     Forall passed_over pre ->
     HasPrefix name "data.tar" = true ->
     (forall suf p, suf ∈ [".gz"; ".xz"; ".lzma"; ".bzip2"] -> name <> p +:+ suf) ->
     convert W debPath (ArStream (pre ++ ArMember name content :: post))
     = {| error := Some (ErrUnsupportedCompression name); ipa := None |}).
Proof.
  split.
  - intros p content. unfold open_payload. split_and!.
    + by rewrite HasSuffix_app.
    + rewrite (suffix_clash_long _ ".lzma" ".gz") by (by apply HasSuffix_app || cbn; lia).
      by rewrite HasSuffix_app.
    + rewrite (suffix_clash_long _ ".bzip2" ".gz") by (by apply HasSuffix_app || cbn; lia).
      rewrite (suffix_clash_long _ ".bzip2" ".lzma") by (by apply HasSuffix_app || cbn; lia).
      by rewrite HasSuffix_app.
    + rewrite (suffix_clash_long _ ".xz" ".gz") by (by apply HasSuffix_app || cbn; lia).
      rewrite (suffix_clash_short _ ".xz" ".lzma") by (by apply HasSuffix_app || cbn; lia).
      rewrite (suffix_clash_short _ ".xz" ".bzip2") by (by apply HasSuffix_app || cbn; lia).
      by rewrite HasSuffix_app.
  - intros debPath pre name content post Hpre Hname Hsuf.
    assert (forall suf, suf ∈ [".gz"; ".xz"; ".lzma"; ".bzip2"] ->
                        HasSuffix name suf = false) as Hno.
    { intros suf Hin. destruct (HasSuffix name suf) eqn:Hs; [|done].
      apply HasSuffix_spec in Hs as [p Hp]. by destruct (Hsuf suf p Hin). }
    unfold convert. rewrite find_data_passed_over by done.
    cbn [find_data]. rewrite Hname. unfold open_payload.
    rewrite !Hno by set_solver. done.
Qed.

Lemma compression_dispatch_witness :
  convert foo_world "Foo.deb"
    (ArStream [ArMember "debian-binary" []; ArMember "control.tar.gz" [];
               ArMember "data.tar.zst" []])
  = {| error := Some (ErrUnsupportedCompression "data.tar.zst"); ipa := None |}.
Proof.
  apply (proj2 (compression_dispatch foo_world) "Foo.deb"
           [ArMember "debian-binary" []; ArMember "control.tar.gz" []]
           "data.tar.zst" [] []).
  - repeat constructor; eexists _, _; (split; [reflexivity|reflexivity]).
  - reflexivity.
  - intros suf p Hin Heq.
    assert (HasSuffix "data.tar.zst" suf = true) as Hs
      by (apply HasSuffix_spec; by exists p).
    repeat (apply elem_of_cons in Hin as [->|Hin]; [discriminate Hs|]).
    by apply elem_of_nil in Hin.
Defined.

(** ** Output path *)

Lemma convert_ipa_path W p q deb :
  ipa_path p = ipa_path q -> convert W p deb = convert W q deb.
Proof. intros H. unfold convert. by rewrite H. Qed.

Lemma convert_success_output (W : World) (debPath : string) (deb : DebSource) :
  error (convert W debPath deb) = None ->
  exists written, ipa (convert W debPath deb) = Some (ipa_path debPath, written).
Proof.
  unfold convert. destruct deb as [| |members]; [done..|].
  destruct (find_data W members); [|done].
  destruct (os_MkdirTemp W); [|done].
  destruct (extract_loop _ _ _ _); [|done].
  destruct (String.eqb _ ""); [done|].
  destruct (os_Create W _); [|done].
  destruct (pack_loop _ _ _ _ _ _ _) as [err out]. cbn. by eexists.
Qed.

(** C10: the output path is the input path with one trailing [.deb]
    removed, when there is one, followed by [.ipa]. An input path that does
    not end in [.deb] gets [.ipa] appended and nothing replaced, and the
    run on it goes exactly as the run on the same archive named with
    [.deb]: the missing suffix fails nothing. Every run that ends without
    error has written its output to that path, and whenever an output file
    is made, by a run that fails later as well, it is at that path. *)
Theorem output_path :
  (forall p, ipa_path (p +:+ ".deb") = p +:+ ".ipa") /\
  (forall p, HasSuffix p ".deb" = false -> ipa_path p = p +:+ ".ipa") /\
  (forall W p deb, HasSuffix p ".deb" = false ->
     convert W p deb = convert W (p +:+ ".deb") deb) /\
  (forall W debPath deb path written,
     ipa (convert W debPath deb) = Some (path, written) -> path = ipa_path debPath) /\
  (forall W debPath deb,
     error (convert W debPath deb) = None ->
     exists written,
       ipa (convert W debPath deb) = Some (ipa_path debPath, written)) /\
  (forall W p deb,
     HasSuffix p ".deb" = false ->
     error (convert W (p +:+ ".deb") deb) = None ->
     exists written,
       convert W p deb = {| error := None; ipa := Some (p +:+ ".ipa", written) |}).
Proof.
  assert (forall p, ipa_path (p +:+ ".deb") = p +:+ ".ipa") as H1.
  { intros p. unfold ipa_path. by rewrite TrimSuffix_app. }
  assert (forall p, HasSuffix p ".deb" = false -> ipa_path p = p +:+ ".ipa") as H2.
  { intros p Hp. unfold ipa_path. by rewrite TrimSuffix_none. }
  assert (forall W p deb, HasSuffix p ".deb" = false ->
            convert W p deb = convert W (p +:+ ".deb") deb) as H3.
  { intros W p deb Hp. apply convert_ipa_path. by rewrite H1, H2. }
  split_and!; [done|done|done| |apply convert_success_output|].
  - intros W debPath deb path written. unfold convert.
    repeat case_match; cbn; intros; simplify_eq; done.
  - intros W p deb Hp Hok. rewrite <- (H3 W p deb Hp) in Hok.
    destruct (convert_success_output W p deb Hok) as [written Hw].
    exists written. rewrite (H2 p Hp) in Hw.
    destruct (convert W p deb) as [e o]. cbn in Hok, Hw. by subst.
Qed.

Lemma output_path_witness :
  ipa_path "pkg/Foo.deb" = "pkg/Foo.ipa" /\
  ipa_path "pkg/Foo.deb.deb" = "pkg/Foo.deb.ipa" /\
  ipa_path "pkg/Foo" = "pkg/Foo.ipa" /\
  convert foo_world "pkg/Foo" (ArStream [ArMember "data.tar.gz" []])
  = convert foo_world "pkg/Foo.deb" (ArStream [ArMember "data.tar.gz" []]) /\
  exists written,
    convert foo_world "pkg/Foo" (ArStream [ArMember "data.tar.gz" []])
    = {| error := None; ipa := Some ("pkg/Foo.ipa", written) |} /\
    length written = 4%nat.
Proof.
  destruct output_path as (H1 & H2 & H3 & _ & _ & H6).
  split; [exact (H1 "pkg/Foo")|]. split; [exact (H1 "pkg/Foo.deb")|].
  split; [exact (H2 "pkg/Foo" eq_refl)|].
  split; [exact (H3 foo_world "pkg/Foo" _ eq_refl)|].
  destruct (H6 foo_world "pkg/Foo" (ArStream [ArMember "data.tar.gz" []]))
    as [written Hw].
  - reflexivity.
  - vm_compute; reflexivity.
  - exists written. split; [exact Hw|].
    vm_compute in Hw. by injection Hw as <-.
Defined.

(** ** Metadata *)

Lemma plist_loop_fold (i : nat) (keys strs : list string) (m : Metadata) :
  plist_loop i keys strs m = fold_left assign_pair (zip keys (drop i strs)) m.
Proof.
  revert i m. induction keys as [|key keys IH]; intros i m; [done|].
  cbn [plist_loop]. destruct (strs !! i) as [value|] eqn:Hi.
  - rewrite (drop_S _ _ _ Hi). cbn. apply IH.
  - rewrite drop_ge by (by apply lookup_ge_None). done.
Qed.

Lemma default_last_cons {A} (d x : A) (l : list A) :
  default d (last (x :: l)) = default x (last l).
Proof. rewrite last_cons. by destruct (last l). Qed.

Lemma in_one (k a : string) : bool_decide (k ∈ [a]) = String.eqb k a.
Proof.
  destruct (String.eqb_spec k a) as [->|Hne].
  - apply bool_decide_eq_true. by left.
  - apply bool_decide_eq_false. by intros ->%list_elem_of_singleton.
Qed.

Lemma in_two (k a b : string) :
  bool_decide (k ∈ [a; b]) = String.eqb k a || String.eqb k b.
Proof.
  destruct (String.eqb_spec k a) as [->|Ha]; cbn [orb].
  - apply bool_decide_eq_true. by left.
  - destruct (String.eqb_spec k b) as [->|Hb].
    + apply bool_decide_eq_true. right. by left.
    + apply bool_decide_eq_false.
      intros [->|[->|[]%elem_of_nil]%elem_of_cons]%elem_of_cons; done.
Qed.

Lemma fold_assign (pairs : list (string * string)) (m : Metadata) :
  fold_left assign_pair pairs m =
  {| executableName := last_value ["CFBundleExecutable"] pairs (executableName m);
     bundleID := last_value ["CFBundleIdentifier"] pairs (bundleID m);
     version := last_value ["CFBundleVersion"; "CFBundleShortVersionString"] pairs
                  (version m) |}.
Proof.
  revert m. induction pairs as [|[k v] pairs IH]; intros m; [by destruct m|].
  cbn [fold_left]. rewrite IH. unfold last_value. cbn [omap list_omap fst snd].
  rewrite !in_one, in_two. unfold assign_pair, assign_key. cbn [fst snd].
  destruct (String.eqb k "CFBundleExecutable");
    destruct (String.eqb k "CFBundleIdentifier");
    destruct (String.eqb k "CFBundleVersion" || String.eqb k "CFBundleShortVersionString");
    cbn [executableName bundleID version]; by rewrite ?default_last_cons.
Qed.

Lemma has_slash_app (a b : string) :
  GoPath.has_slash (a +:+ b) = GoPath.has_slash a || GoPath.has_slash b.
Proof.
  induction a as [|c a IH]; [done|]. cbn. by rewrite IH, orb_assoc.
Qed.

Lemma strip_slashes_slash (t : string) :
  GoPath.strip_slashes (t +:+ "/") = GoPath.strip_slashes t.
Proof. induction t as [|c t IH]; [done|]. cbn. by rewrite IH. Qed.

Lemma strip_slashes_plain (t : string) (c : ascii) :
  c <> GoPath.slash ->
  GoPath.strip_slashes (t +:+ String c "") = t +:+ String c "".
Proof.
  intros Hc. induction t as [|x t IH]; cbn.
  - by destruct (Ascii.eqb_spec c GoPath.slash).
  - rewrite IH. by destruct t.
Qed.

Lemma last_elem_plain (e : string) :
  GoPath.has_slash e = false -> GoPath.last_elem e = e.
Proof.
  destruct e as [|c e]; [done|]. cbn.
  intros [Hc ->]%orb_false_elim. by rewrite Hc.
Qed.

Lemma last_elem_after_slash (d e : string) :
  GoPath.has_slash e = false -> GoPath.last_elem (d +:+ "/" +:+ e) = e.
Proof.
  intros He. induction d as [|c d IH]; cbn.
  - by rewrite He.
  - rewrite has_slash_app. cbn. by rewrite orb_true_r.
Qed.

(** The base name of an app root [dir/name.app/] is [name.app]. *)
Lemma Base_app_folder (dir name : string) :
  GoPath.has_slash name = false ->
  dir = "" \/ (exists d, dir = d +:+ "/") ->
  GoPath.Base (dir +:+ name +:+ ".app/") = name +:+ ".app".
Proof.
  intros Hname Hdir.
  assert (GoPath.has_slash (name +:+ ".app") = false) as He
    by (by rewrite has_slash_app, Hname).
  assert (String.eqb (name +:+ ".app") "" = false) as Hne
    by (by destruct name).
  unfold GoPath.Base.
  assert (String.eqb (dir +:+ name +:+ ".app/") "" = false) as ->.
  { destruct dir; [by destruct name|done]. }
  replace (dir +:+ name +:+ ".app/") with ((dir +:+ name +:+ ".ap") +:+ "p" +:+ "/")
    by (by rewrite !app_assoc_s).
  rewrite <- (app_assoc_s _ "p" "/"), strip_slashes_slash.
  rewrite strip_slashes_plain by done.
  replace ((dir +:+ name +:+ ".ap") +:+ "p") with (dir +:+ name +:+ ".app")
    by (by rewrite !app_assoc_s).
  destruct Hdir as [->|[d ->]].
  - cbn [String.append]. by rewrite last_elem_plain, Hne.
  - rewrite app_assoc_s. by rewrite last_elem_after_slash, Hne.
Qed.

(** C7: the metadata parser depends on the decoded descriptor only through
    its key list and its string list: the i-th key is paired with the i-th
    string, pairs past the shorter list are ignored, [CFBundleExecutable]
    sets [executableName], [CFBundleIdentifier] sets [bundleID] (default
    "Unknown"), [CFBundleVersion] and [CFBundleShortVersionString] both set
    [version] (default "Unknown"), and a later pair overwrites an earlier
    one. A descriptor that does not decode, or none at all, leaves the
    defaults. An empty [executableName] becomes the base name of the app
    folder without its trailing [.app]; a non-empty one is kept. *)
Theorem metadata_parser (W : World) :
  (forall keys strs, plist_loop 0 keys strs metadata0 = paired_metadata keys strs) /\
  (forall data plist,
     data <> [] -> xml_Unmarshal W data = Some plist ->
     parse_metadata W data =
     paired_metadata (Keys (Dict plist)) (String_ (Dict plist))) /\
  (forall data, xml_Unmarshal W data = None -> parse_metadata W data = metadata0) /\
  parse_metadata W [] = metadata0 /\
  (forall dir name,
     GoPath.has_slash name = false ->
     dir = "" \/ (exists d, dir = d +:+ "/") ->
     resolve_executable "" (GoPath.Base (dir +:+ name +:+ ".app/")) = name) /\
  (forall exe folder, exe <> "" -> resolve_executable exe folder = exe).
Proof.
  assert (forall keys strs,
            plist_loop 0 keys strs metadata0 = paired_metadata keys strs) as Hloop.
  { intros keys strs. rewrite plist_loop_fold, fold_assign. by rewrite drop_0. }
  split_and!.
  - done.
  - intros data plist Hdata Hxml. unfold parse_metadata. rewrite Hxml.
    destruct data; [done|]. cbn [length]. apply Hloop.
  - intros data Hxml. unfold parse_metadata. rewrite Hxml. by case_match.
  - done.
  - intros dir name Hname Hdir. rewrite Base_app_folder by done.
    unfold resolve_executable. cbn [String.eqb]. apply TrimSuffix_app.
  - intros exe folder Hne. unfold resolve_executable.
    by destruct (String.eqb_spec exe "").
Qed.

Lemma metadata_parser_witness :
  parse_metadata foo_world (String.list_byte_of_string "<plist/>") =
    {| executableName := "Foo"; bundleID := "com.example.foo"; version := "Unknown" |} /\
  resolve_executable "" (GoPath.Base "Applications/Bar.app/") = "Bar".
Proof.
  destruct (metadata_parser foo_world) as (_ & Hparse & _ & _ & Hname & _).
  split.
  - rewrite (Hparse (String.list_byte_of_string "<plist/>") foo_plist);
      [reflexivity | discriminate | reflexivity].
  - apply (Hname "Applications/" "Bar"); [reflexivity|].
    right. by exists "Applications".
Defined.

(** * Further properties of [convert] and [main] *)

(** ** One step of the extraction loop, case by case *)

Lemma wrap64_add (a b : Z) : wrap64 (wrap64 a + b) = wrap64 (a + b).
Proof.
  unfold wrap64. f_equal.
  replace ((a + 2 ^ 63) mod 2 ^ 64 - 2 ^ 63 + b + 2 ^ 63)
    with ((a + 2 ^ 63) mod 2 ^ 64 + b) by lia.
  rewrite Z.add_mod_idemp_l by lia. f_equal. lia.
Qed.

Lemma wrap64_wrap64 (a : Z) : wrap64 (wrap64 a) = wrap64 a.
Proof. pose proof (wrap64_add a 0) as H. by rewrite !Z.add_0_r in H. Qed.

(** What a successful step does to the store, the counters and the spill
    directory, by the type flag and the outcome of the RAM test. *)
Lemma extract_step_cases W tempDir st header body bodyErr st' :
  extract_step W tempDir st header body bodyErr = Ok st' ->
  fileCount st' = wrap64 (fileCount st + 1) /\
  totalSize st' =
    (if Ascii.eqb (Typeflag header) TypeReg
     then wrap64 (totalSize st + Size header) else totalSize st) /\
  ((is_kept header = false /\ files st' = files st /\
    currentRamUsage st' = currentRamUsage st /\
    spillCount st' = spillCount st /\ disk st' = disk st) \/
   (is_kept header = true /\ Typeflag header <> TypeReg /\
    files st' = files st ++ [stored header None ""] /\
    currentRamUsage st' = currentRamUsage st /\
    spillCount st' = spillCount st /\ disk st' = disk st) \/
   (Typeflag header = TypeReg /\ bodyErr = false /\
    wrap64 (currentRamUsage st + Size header) < MaxMemoryUsage /\
    files st' = files st ++ [stored header (Some body) ""] /\
    currentRamUsage st' = wrap64 (currentRamUsage st + Z.of_nat (length body)) /\
    spillCount st' = spillCount st /\ disk st' = disk st) \/
   (Typeflag header = TypeReg /\
    MaxMemoryUsage <= wrap64 (currentRamUsage st + Size header) /\
    os_Create W (spill_path W tempDir (wrap64 (spillCount st + 1))) = true /\
    files st' =
      files st ++
      [stored header None (spill_path W tempDir (wrap64 (spillCount st + 1)))] /\
    currentRamUsage st' = currentRamUsage st /\
    spillCount st' = wrap64 (spillCount st + 1) /\
    disk st' =
      <[spill_path W tempDir (wrap64 (spillCount st + 1)) :=
          take (file_Write W (spill_path W tempDir (wrap64 (spillCount st + 1)))
                  body) body]> (disk st))).
Proof.
  unfold extract_step, is_kept, stored.
  destruct (Ascii.eqb_spec (Typeflag header) TypeSymlink) as [Hs|Hs].
  { intros [= <-]. rewrite Hs. cbn.
    split; [done|]. split; [done|]. right. left. by split_and!. }
  destruct (Ascii.eqb_spec (Typeflag header) TypeReg) as [Hr|Hr].
  - unfold place.
    cbn [currentRamUsage spillCount files disk appDirPrefix infoPlistData
         fileCount totalSize Name Data DiskPath Mode ModTime IsDir IsLink LinkDest].
    destruct (Z.ltb_spec (wrap64 (currentRamUsage st + Size header)) MaxMemoryUsage)
      as [Hlt|Hge].
    + destruct bodyErr; [done|]. cbn [ReadAll]. intros [= <-].
      unfold append_file. rewrite capture_plist_files. unfold capture_plist.
      rewrite Hr.
      destruct (HasSuffix (hName header) "Info.plist" && _); cbn.
      all: split; [done|]; split; [done|]; right; right; left; by split_and!.
    + cbv zeta. destruct (os_Create W _) eqn:Hc; [|done]. intros [= <-].
      unfold append_file. rewrite capture_plist_files. unfold capture_plist.
      rewrite andb_false_r, Hr. cbn.
      split; [done|]. split; [done|]. right. right. right. by split_and!.
  - destruct (Ascii.eqb_spec (Typeflag header) TypeDir) as [Hd|Hd]; intros [= <-].
    + rewrite Hd. cbn. split; [done|]. split; [done|]. right. left. by split_and!.
    + cbn. split; [done|]. split; [done|]. by left.
Qed.

Lemma extract_loop_app W tempDir (pre post : list TarNext) (st : Engine) :
  extract_loop W tempDir st (pre ++ post) =
  match extract_loop W tempDir st pre with
  | Ok st1 => extract_loop W tempDir st1 post
  | Err e => Err e
  end.
Proof.
  revert st. induction pre as [|[|header body bodyErr] pre IH]; intros st; cbn;
    [done|done|].
  by destruct (extract_step _ _ _ _ _ _).
Qed.

Lemma sumZ_snoc (l : list Z) (x : Z) : sumZ (l ++ [x]) = sumZ l + x.
Proof. unfold sumZ. induction l as [|y l IH]; cbn; lia. Qed.

Lemma sumZ_cons (x : Z) (l : list Z) : sumZ (x :: l) = x + sumZ l.
Proof. done. Qed.

Lemma regular_sizes_cons header body bodyErr (stream : list TarNext) :
  regular_sizes (TarEntry header body bodyErr :: stream) =
  if Ascii.eqb (Typeflag header) TypeReg
  then Size header :: regular_sizes stream else regular_sizes stream.
Proof.
  unfold regular_sizes. cbn [omap list_omap].
  by destruct (Ascii.eqb (Typeflag header) TypeReg).
Qed.

Lemma ram_bytes_snoc (files : list VirtualFile) (vf : VirtualFile) :
  ram_bytes (files ++ [vf]) =
  ram_bytes files + Z.of_nat (length (default [] (Data vf))).
Proof. unfold ram_bytes. rewrite map_app. cbn [map]. by rewrite sumZ_snoc. Qed.

(** ** The counters of the pass *)

Lemma extract_loop_counters W tempDir (stream : list TarNext) (st st' : Engine) :
  wrap64 (fileCount st) = fileCount st ->
  wrap64 (totalSize st) = totalSize st ->
  extract_loop W tempDir st stream = Ok st' ->
  fileCount st' = wrap64 (fileCount st + Z.of_nat (length stream)) /\
  totalSize st' = wrap64 (totalSize st + sumZ (regular_sizes stream)).
Proof.
  revert st. induction stream as [|[|header body bodyErr] stream IH];
    intros st Hfc Hts; cbn [extract_loop].
  - intros [= <-]. cbn. by rewrite !Z.add_0_r, Hfc, Hts.
  - done.
  - destruct (extract_step _ _ _ _ _ _) as [st1|] eqn:Hstep; [|done].
    intros Hloop.
    destruct (extract_step_cases _ _ _ _ _ _ _ Hstep) as (Hfc1 & Hts1 & _).
    destruct (IH st1) as (-> & ->); [| |done|].
    + rewrite Hfc1. apply wrap64_wrap64.
    + rewrite Hts1. destruct (Ascii.eqb (Typeflag header) TypeReg); [|done].
      apply wrap64_wrap64.
    + rewrite Hfc1, Hts1, regular_sizes_cons. rewrite wrap64_add.
      split; [f_equal; cbn [length]; lia|].
      destruct (Ascii.eqb (Typeflag header) TypeReg); [|done].
      rewrite wrap64_add, sumZ_cons. f_equal. lia.
Qed.

(** X1: after a pass that reaches the end of the stream, [fileCount] is the
    number of headers read and [totalSize], the total handed to the progress
    bar, is the sum of the declared sizes of all regular files, inside the
    app folder or not; both in [int64] arithmetic. *)
Theorem pass_counters (W : World) (tempDir : string) (stream : list TarNext)
    (st : Engine) :
  extract_loop W tempDir engine0 stream = Ok st ->
  fileCount st = wrap64 (Z.of_nat (length stream)) /\
  totalSize st = wrap64 (sumZ (regular_sizes stream)).
Proof.
  intros Hloop.
  assert (wrap64 0 = 0) as H0 by reflexivity.
  by destruct (extract_loop_counters W tempDir stream engine0 st H0 H0 Hloop)
    as (-> & ->).
Qed.

Lemma pass_counters_witness :
  exists st,
    extract_loop foo_world "/tmp/ipa-spill1" engine0 foo_tar = Ok st /\
    fileCount st = 4 /\ totalSize st = 18.
Proof.
  eexists. split; [vm_compute; reflexivity|].
  apply (pass_counters foo_world "/tmp/ipa-spill1" foo_tar).
  vm_compute; reflexivity.
Defined.

(** ** The memory budget *)

Lemma extract_step_budget W tempDir st header body bodyErr st' :
  0 <= Size header <= max_int64 - MaxMemoryUsage ->
  (bodyErr = false -> Z.of_nat (length body) = Size header) ->
  ram_bytes (files st) = currentRamUsage st ->
  0 <= currentRamUsage st < MaxMemoryUsage ->
  extract_step W tempDir st header body bodyErr = Ok st' ->
  ram_bytes (files st') = currentRamUsage st' /\
  0 <= currentRamUsage st' < MaxMemoryUsage.
Proof.
  intros Hsize Hlen Hbytes Hram Hstep.
  destruct (extract_step_cases _ _ _ _ _ _ _ Hstep)
    as (_ & _ & [(_ & -> & -> & _)|[(_ & _ & -> & -> & _)|
                 [(_ & -> & Hlt & -> & -> & _)|(_ & _ & _ & -> & -> & _)]]]).
  - done.
  - rewrite ram_bytes_snoc. cbn. split; [lia|done].
  - specialize (Hlen eq_refl). rewrite ram_bytes_snoc. cbn.
    rewrite wrap64_id in Hlt by (unfold min_int64, max_int64 in *; lia).
    rewrite wrap64_id by (unfold min_int64, max_int64 in *; lia).
    split; lia.
  - rewrite ram_bytes_snoc. cbn. split; [lia|done].
Qed.

(** X2: the memory budget is kept at every moment of the pass. For a
    stream as a tar reader delivers it (sizes not negative and within
    [int64] less the ceiling, bodies of the declared length), after any
    number of its entries [currentRamUsage] is exactly the number of bytes
    held in the buffers of the store, and it is below [MaxMemoryUsage]. *)
Theorem memory_budget (W : World) (tempDir : string)
    (pre post : list TarNext) (st : Engine) :
  Forall well_sized (pre ++ post) ->
  extract_loop W tempDir engine0 (pre ++ post) = Ok st ->
  exists st1,
    extract_loop W tempDir engine0 pre = Ok st1 /\
    ram_bytes (files st1) = currentRamUsage st1 /\
    0 <= currentRamUsage st1 < MaxMemoryUsage.
Proof.
  intros [Hpre _]%Forall_app. rewrite extract_loop_app.
  destruct (extract_loop W tempDir engine0 pre) as [st1|] eqn:Hloop; [|done].
  intros _. exists st1. split; [done|].
  assert (ram_bytes (files engine0) = currentRamUsage engine0 /\
          0 <= currentRamUsage engine0 < MaxMemoryUsage) as Hinit.
  { unfold MaxMemoryUsage. cbn. split; [done|lia]. }
  revert Hloop Hinit. generalize engine0 as st0.
  induction Hpre as [|[|header body bodyErr] pre Hx _ IH]; intros st0; cbn.
  - by intros [= <-].
  - done.
  - destruct (extract_step _ _ _ _ _ _) as [st2|] eqn:Hstep; [|done].
    intros Hloop (Hbytes & Hram). destruct Hx as (Hsize & Hlen).
    apply (IH st2 Hloop).
    by apply (extract_step_budget _ _ _ _ _ _ _ Hsize Hlen Hbytes Hram Hstep).
Qed.

Lemma memory_budget_witness :
  exists st1,
    extract_loop foo_world "/tmp/ipa-spill1" engine0 (take 2 foo_tar) = Ok st1 /\
    ram_bytes (files st1) = currentRamUsage st1 /\
    0 <= currentRamUsage st1 < MaxMemoryUsage.
Proof.
  apply (memory_budget foo_world "/tmp/ipa-spill1" (take 2 foo_tar) (drop 2 foo_tar)
           (default engine0
              (match extract_loop foo_world "/tmp/ipa-spill1" engine0 foo_tar with
               | Ok st => Some st | Err _ => None end))).
  - unfold foo_tar, entry. cbn [take drop app].
    repeat (apply Forall_cons; split;
              [split; [vm_compute; split; discriminate | intros _; reflexivity]|]).
    constructor.
  - vm_compute; reflexivity.
Defined.

(** ** The spill files of a pass *)

Lemma spilled_filter_snoc (files : list VirtualFile) (vf : VirtualFile) :
  List.filter (fun vf => negb (String.eqb (DiskPath vf) "")) (files ++ [vf]) =
  List.filter (fun vf => negb (String.eqb (DiskPath vf) "")) files ++
  (if String.eqb (DiskPath vf) "" then [] else [vf]).
Proof.
  rewrite List.filter_app. cbn [List.filter].
  by destruct (String.eqb (DiskPath vf) "").
Qed.

Lemma seqZ_snoc (n : Z) : 0 <= n -> seqZ 1 (n + 1) = seqZ 1 n ++ [n + 1].
Proof.
  intros Hn. rewrite seqZ_app by lia. f_equal.
  rewrite seqZ_cons by lia. rewrite seqZ_nil by lia. f_equal. lia.
Qed.

Lemma spill_path_eqb W tempDir k : String.eqb (spill_path W tempDir k) "" = false.
Proof. apply String.eqb_neq, spill_path_nonempty. Qed.

Lemma extract_step_spill_inv W tempDir st header body bodyErr st' :
  spill_inv W tempDir st -> spillCount st < max_int64 ->
  extract_step W tempDir st header body bodyErr = Ok st' ->
  spill_inv W tempDir st' /\ spillCount st <= spillCount st' <= spillCount st + 1.
Proof.
  intros (Hsc & Hpaths & Hdisk) Hmax Hstep. unfold spill_inv.
  destruct (extract_step_cases _ _ _ _ _ _ _ Hstep)
    as (_ & _ & [(_ & -> & _ & -> & ->)|[(_ & _ & -> & _ & -> & ->)|
                 [(_ & _ & _ & -> & _ & -> & ->)|(_ & _ & _ & -> & _ & -> & ->)]]]).
  - split; [done|lia].
  - rewrite spilled_filter_snoc. cbn. rewrite app_nil_r. split; [done|lia].
  - rewrite spilled_filter_snoc. cbn. rewrite app_nil_r. split; [done|lia].
  - rewrite wrap64_id by (unfold min_int64, max_int64 in *; lia).
    rewrite spilled_filter_snoc. cbn [DiskPath stored]. rewrite spill_path_eqb.
    split; [|lia]. split_and!; [lia| |].
    + rewrite map_app, Hpaths, seqZ_snoc, map_app by done. done.
    + intros p [x Hx].
      destruct (decide (spill_path W tempDir (spillCount st + 1) = p)) as [<-|Hne].
      * exists (spillCount st + 1). split; [lia|done].
      * rewrite lookup_insert_ne in Hx by done.
        destruct (Hdisk p) as (k & Hk & Hp); [by exists x|].
        exists k. split; [lia|done].
Qed.

Lemma extract_loop_spill_inv W tempDir (stream : list TarNext) (st st' : Engine) :
  spill_inv W tempDir st ->
  spillCount st + Z.of_nat (length stream) <= max_int64 ->
  extract_loop W tempDir st stream = Ok st' ->
  spill_inv W tempDir st'.
Proof.
  revert st. induction stream as [|[|header body bodyErr] stream IH];
    intros st Hinv Hn; cbn [extract_loop].
  - by intros [= <-].
  - done.
  - destruct (extract_step _ _ _ _ _ _) as [st1|] eqn:Hstep; [|done].
    cbn [length] in Hn.
    assert (spillCount st < max_int64) as Hlt by lia.
    destruct (extract_step_spill_inv W tempDir st header body bodyErr st1
                Hinv Hlt Hstep) as (Hinv1 & Hs1).
    apply IH; [done|lia].
Qed.

Lemma spill_inv_0 (W : World) (tempDir : string) : spill_inv W tempDir engine0.
Proof.
  unfold spill_inv, engine0. cbn. split; [done|]. split; [done|].
  intros p [x Hx]. by rewrite lookup_empty in Hx.
Qed.

(** X3: across the whole pass the spill files are numbered in the order
    of the store: the spilled entries carry the paths [spill_1], [spill_2],
    ... up to [spillCount], so no two entries share a file, and the spill
    directory holds no file but these. *)
Theorem spill_files_numbered (W : World) (tempDir : string)
    (stream : list TarNext) (st : Engine) :
  Z.of_nat (length stream) <= max_int64 ->
  extract_loop W tempDir engine0 stream = Ok st ->
  let spilled :=
    List.filter (fun vf => negb (String.eqb (DiskPath vf) "")) (files st) in
  map DiskPath spilled = map (spill_path W tempDir) (seqZ 1 (spillCount st)) /\
  NoDup (map DiskPath spilled) /\
  (forall p, is_Some (disk st !! p) -> p ∈ map DiskPath spilled).
Proof.
  intros Hn Hloop.
  destruct (extract_loop_spill_inv W tempDir stream engine0 st) as (Hsc & Hpaths & Hdisk);
    [apply spill_inv_0|cbn; lia|done|].
  cbv zeta. rewrite Hpaths. split_and!; [done| |].
  - assert (Inj (=) (=) (spill_path W tempDir)) as Hinj
      by (intros j k; apply spill_path_inj).
    apply (NoDup_fmap_2 (spill_path W tempDir)), NoDup_seqZ.
  - intros p Hp. destruct (Hdisk p Hp) as (k & Hk & ->).
    apply (list_elem_of_fmap_2 (spill_path W tempDir)).
    apply elem_of_seqZ. lia.
Qed.

Lemma spill_files_numbered_witness :
  exists st,
    extract_loop foo_world "/tmp/ipa-spill1" engine0 spill_tar = Ok st /\
    map DiskPath (files st) =
      ["/tmp/ipa-spill1/spill_1"; ""; "/tmp/ipa-spill1/spill_2"] /\
    spillCount st = 2 /\
    NoDup (map DiskPath
             (List.filter (fun vf => negb (String.eqb (DiskPath vf) "")) (files st))) /\
    (forall p, is_Some (disk st !! p) ->
       p ∈ map DiskPath
             (List.filter (fun vf => negb (String.eqb (DiskPath vf) "")) (files st))).
Proof.
  destruct (extract_loop foo_world "/tmp/ipa-spill1" engine0 spill_tar)
    as [st|e] eqn:Hloop; [|by vm_compute in Hloop].
  exists st. split; [done|].
  destruct (spill_files_numbered foo_world "/tmp/ipa-spill1" spill_tar st)
    as (_ & Hnodup & Hdisk).
  - vm_compute. discriminate.
  - exact Hloop.
  - vm_compute in Hloop. injection Hloop as <-.
    split; [reflexivity|]. split; [reflexivity|]. split; [exact Hnodup|exact Hdisk].
Defined.

(** ** Contents of the store *)

Lemma entry_body_other_disk (W : World) (disk : gmap string (list byte))
    (p : string) (b : list byte) (vf : VirtualFile) :
  DiskPath vf <> p ->
  entry_body W (<[p := b]> disk) vf = entry_body W disk vf.
Proof.
  intros Hne. unfold entry_body.
  destruct (IsLink vf); [done|]. destruct (IsDir vf); [done|]. cbn [negb].
  destruct (String.eqb (DiskPath vf) ""); [done|]. cbn [negb].
  by rewrite lookup_insert_ne.
Qed.

Lemma take_prefix_of {A} (n : nat) (l : list A) : take n l `prefix_of` l.
Proof. exists (drop n l). by rewrite take_drop. Qed.

Lemma packed_body_prefix (W : World) (vf : VirtualFile) (sent : list byte) :
  packed_body W vf sent `prefix_of` sent.
Proof.
  unfold packed_body, read_back. destruct (String.eqb (DiskPath vf) ""); [done|].
  cbv zeta. etrans; apply take_prefix_of.
Qed.

Lemma packed_body_lossless (W : World) (vf : VirtualFile) (sent : list byte) :
  lossless_files W -> packed_body W vf sent = sent.
Proof.
  intros [Hw Hr]. unfold packed_body, read_back.
  destruct (String.eqb (DiskPath vf) ""); [done|]. cbv zeta.
  rewrite (take_ge sent) by apply Hw. by rewrite take_ge by apply Hr.
Qed.

Lemma delivered_cons header body bodyErr (stream : list TarNext) :
  delivered (TarEntry header body bodyErr :: stream) =
  (if Ascii.eqb (Typeflag header) TypeSymlink
   then [String.list_byte_of_string (Linkname header)]
   else if Ascii.eqb (Typeflag header) TypeReg then [body]
   else if Ascii.eqb (Typeflag header) TypeDir then [[]]
   else []) ++ delivered stream.
Proof.
  unfold delivered. cbn [omap list_omap].
  by repeat destruct (Ascii.eqb _ _).
Qed.

Lemma extract_loop_bodies W tempDir (stream : list TarNext) (st st' : Engine) :
  spill_inv W tempDir st ->
  spillCount st + Z.of_nat (length stream) <= max_int64 ->
  extract_loop W tempDir st stream = Ok st' ->
  exists new,
    files st' = files st ++ new /\
    (forall vf, vf ∈ files st ->
       entry_body W (disk st') vf = entry_body W (disk st) vf) /\
    Forall2 (fun vf sent => entry_body W (disk st') vf = packed_body W vf sent)
      new (delivered stream).
Proof.
  revert st. induction stream as [|[|header body bodyErr] stream IH];
    intros st Hinv Hn; cbn [extract_loop].
  - intros [= <-]. exists []. rewrite app_nil_r. split; [done|]. split; [done|].
    constructor.
  - done.
  - destruct (extract_step _ _ _ _ _ _) as [st1|] eqn:Hstep; [|done].
    cbn [length] in Hn. assert (spillCount st < max_int64) as Hlt by lia.
    destruct (extract_step_spill_inv W tempDir st header body bodyErr st1
                Hinv Hlt Hstep) as (Hinv1 & Hs1).
    intros Hloop.
    destruct (IH st1 Hinv1 ltac:(lia) Hloop) as (new1 & Hfiles & Hkeep & Hnew).
    rewrite delivered_cons.
    destruct Hinv as (Hsc & Hpaths & Hdisk). unfold is_kept in *.
    destruct (extract_step_cases _ _ _ _ _ _ _ Hstep)
      as (_ & _ & [(Hk & Hf1 & _ & _ & Hd1)|[(Hk & Hr & Hf1 & _ & _ & Hd1)|
                   [(Hr & _ & _ & Hf1 & _ & _ & Hd1)|(Hr & _ & _ & Hf1 & _ & _ & Hd1)]]]).
    + apply orb_false_elim in Hk as [[-> ->]%orb_false_elim ->].
      exists new1. rewrite <- Hf1, <- Hd1. by split_and!.
    + exists (stored header None "" :: new1).
      rewrite Hfiles, Hf1, <- (assoc app). split; [done|].
      split.
      { intros vf Hvf. rewrite Hkeep, Hd1; [done|].
        rewrite Hf1. apply elem_of_app. by left. }
      assert (entry_body W (disk st') (stored header None "")
              = entry_body W (disk st) (stored header None "")) as Hone.
      { rewrite Hkeep, Hd1; [done|]. rewrite Hf1. apply elem_of_app. right.
        by apply list_elem_of_singleton. }
      apply Ascii.eqb_neq in Hr. unfold is_kept in Hk. rewrite Hr in Hk |- *.
      destruct (Ascii.eqb (Typeflag header) TypeSymlink) eqn:Hs.
      * cbn [app]. constructor; [|done]. rewrite Hone.
        unfold entry_body, stored, packed_body. cbn. by rewrite Hs.
      * destruct (Ascii.eqb (Typeflag header) TypeDir) eqn:Hdir; [|done].
        cbn [app]. constructor; [|done]. rewrite Hone.
        unfold entry_body, stored, packed_body. cbn. by rewrite Hs, Hdir.
    + exists (stored header (Some body) "" :: new1).
      rewrite Hfiles, Hf1, <- (assoc app). split; [done|].
      split.
      { intros vf Hvf. rewrite Hkeep, Hd1; [done|].
        rewrite Hf1. apply elem_of_app. by left. }
      rewrite Hr. cbn [app]. constructor; [|done].
      rewrite Hkeep, Hd1.
      * unfold entry_body, stored, packed_body. by rewrite Hr.
      * rewrite Hf1. apply elem_of_app. right. by apply list_elem_of_singleton.
    + rewrite wrap64_id in Hf1, Hd1 by (unfold min_int64, max_int64 in *; lia).
      set (tempPath := spill_path W tempDir (spillCount st + 1)) in *.
      exists (stored header None tempPath :: new1).
      rewrite Hfiles, Hf1, <- (assoc app). split; [done|].
      split.
      { intros vf Hvf. rewrite Hkeep, Hd1.
        - apply entry_body_other_disk. intros Heq.
          assert (DiskPath vf ∈ map (spill_path W tempDir) (seqZ 1 (spillCount st)))
            as Hp.
          { rewrite <- Hpaths. apply list_elem_of_In, in_map, filter_In.
            split; [by apply list_elem_of_In|].
            rewrite Heq. unfold tempPath. by rewrite spill_path_eqb. }
          apply list_elem_of_In, in_map_iff in Hp as (k & Hk & Hin').
          apply list_elem_of_In, elem_of_seqZ in Hin'.
          rewrite <- Hk in Heq. apply spill_path_inj in Heq. lia.
        - rewrite Hf1. apply elem_of_app. by left. }
      rewrite Hr. cbn [app]. constructor; [|done].
      rewrite Hkeep, Hd1.
      * unfold entry_body, stored, packed_body, read_back. rewrite Hr. cbn.
        unfold tempPath. rewrite spill_path_eqb. cbn.
        by rewrite lookup_insert_eq.
      * rewrite Hf1. apply elem_of_app. right. by apply list_elem_of_singleton.
Qed.

(** X4: what the packager reads for each stored entry, against what the
    tar stream delivered for it. For a symlink it is the link target, for a
    directory nothing, for a regular file kept in memory its body. For a
    spilled file it is the part of the body that the copy to the spill file
    wrote and the copy from it read: always a prefix of the body, and the
    whole body when no write to a spill file and no read from one stops
    short. Neither copy's error is looked at, so a shortened file is packed
    as if it were whole. Spilling a later file never disturbs the bytes of
    an earlier one. *)
Theorem stored_contents (W : World) (tempDir : string)
    (stream : list TarNext) (st : Engine) :
  Z.of_nat (length stream) <= max_int64 ->
  extract_loop W tempDir engine0 stream = Ok st ->
  Forall2 (fun vf sent => entry_body W (disk st) vf = packed_body W vf sent)
    (files st) (delivered stream) /\
  Forall2 (fun vf sent => entry_body W (disk st) vf `prefix_of` sent)
    (files st) (delivered stream) /\
  (lossless_files W ->
   map (entry_body W (disk st)) (files st) = delivered stream).
Proof.
  intros Hn Hloop.
  destruct (extract_loop_bodies W tempDir stream engine0 st
              (spill_inv_0 W tempDir) ltac:(cbn; lia) Hloop)
    as (new & Hfiles & _ & Hnew).
  cbn in Hfiles. rewrite Hfiles. split; [done|]. split.
  - eapply Forall2_impl; [exact Hnew|]. cbn. intros vf sent ->.
    apply packed_body_prefix.
  - intros Hfull. clear Hfiles.
    induction Hnew as [|vf sent new sents Hone _ IH]; [done|].
    cbn [map]. by rewrite Hone, packed_body_lossless, IH.
Qed.

Lemma stored_contents_witness :
  exists st,
    extract_loop foo_world "/tmp/ipa-spill1" engine0 spill_tar = Ok st /\
    map DiskPath (files st) =
      ["/tmp/ipa-spill1/spill_1"; ""; "/tmp/ipa-spill1/spill_2"] /\
    map (entry_body foo_world (disk st)) (files st) =
      [String.list_byte_of_string "BIGFILE"; String.list_byte_of_string "MACHO";
       String.list_byte_of_string "MORE"].
Proof.
  destruct (extract_loop foo_world "/tmp/ipa-spill1" engine0 spill_tar)
    as [st|e] eqn:Hloop; [|by vm_compute in Hloop].
  exists st. split; [done|].
  destruct (stored_contents foo_world "/tmp/ipa-spill1" spill_tar st)
    as (_ & _ & Hwhole).
  - vm_compute. discriminate.
  - exact Hloop.
  - split.
    + vm_compute in Hloop. by injection Hloop as <-.
    + rewrite Hwhole; [reflexivity|]. split; intros; cbn; lia.
Defined.

(** The packager reads a spilled body back although the memory test sent
    it to disk: below the ceiling by four bytes, the five-byte file comes
    back whole. *)
Example spilled_body_read_back :
  exists st',
    extract_loop foo_world "/tmp/ipa-spill1" near_ceiling
      [entry "a/five" TypeReg 0x1a4 "12345"; entry "a/two" TypeReg 0x1a4 "12"]
    = Ok st' /\
    map (entry_body foo_world (disk st')) (files st') =
      [String.list_byte_of_string "12345"; String.list_byte_of_string "12"].
Proof. eexists. split; [vm_compute; reflexivity|]. by vm_compute. Qed.

(** A spill file cut short is packed cut short, and the run reports no
    error: on a host whose writes to spill files stop after two bytes the
    archive holds [BI] and [MO] for the two large files. *)
Example short_write_packed :
  exists st,
    extract_loop short_write_world "/tmp/ipa-spill1" engine0 spill_tar = Ok st /\
    map (entry_body short_write_world (disk st)) (files st) =
      [String.list_byte_of_string "BI"; String.list_byte_of_string "MACHO";
       String.list_byte_of_string "MO"] /\
    exists written,
      convert short_write_world "Foo.deb" (ArStream [ArMember "data.tar.gz" []])
      = {| error := None; ipa := Some ("Foo.ipa", written) |} /\
      map snd written =
        [String.list_byte_of_string "BI"; String.list_byte_of_string "MACHO";
         String.list_byte_of_string "MO"].
Proof.
  eexists. split; [vm_compute; reflexivity|]. split; [by vm_compute|].
  eexists. split; [vm_compute; reflexivity|]. by vm_compute.
Qed.

(** ** Shape of the store *)

Lemma stored_shaped (header : TarHeader) (data : option (list byte))
    (diskPath : string) :
  (Typeflag header <> TypeReg -> data = None /\ diskPath = "") ->
  (Typeflag header = TypeReg ->
   (is_Some data /\ diskPath = "") \/ (data = None /\ diskPath <> "")) ->
  is_kept header = true ->
  shaped (stored header data diskPath).
Proof.
  unfold shaped, stored, is_kept. cbn. intros Hother Hreg Hk.
  destruct (Ascii.eqb_spec (Typeflag header) TypeSymlink) as [Hs|Hs].
  - rewrite Hs. cbn. split; [done|]. split; [|done].
    intros _. apply Hother. by rewrite Hs.
  - destruct (Ascii.eqb_spec (Typeflag header) TypeDir) as [Hd|Hd]; cbn.
    + split; [done|]. split; [|done]. intros _. apply Hother. by rewrite Hd.
    + split; [done|]. split; [done|]. intros _. apply Hreg.
      destruct (Ascii.eqb_spec (Typeflag header) TypeReg); done.
Qed.

(** X5: every entry of the store has a definite kind and the content that
    goes with it: no entry is both symlink and directory, symlinks and
    directories carry neither buffer nor spill path, and every regular file
    carries exactly one of the two. *)
Theorem store_shape (W : World) (tempDir : string)
    (stream : list TarNext) (st : Engine) :
  extract_loop W tempDir engine0 stream = Ok st ->
  Forall shaped (files st).
Proof.
  assert (Forall shaped (files engine0)) as Hinit by constructor.
  revert Hinit. generalize engine0 as st0.
  induction stream as [|[|header body bodyErr] stream IH]; intros st0 Hinit;
    cbn [extract_loop].
  - by intros [= <-].
  - done.
  - destruct (extract_step _ _ _ _ _ _) as [st1|] eqn:Hstep; [|done].
    apply IH.
    destruct (extract_step_cases _ _ _ _ _ _ _ Hstep)
      as (_ & _ & [(_ & -> & _)|[(Hk & Hr & -> & _)|
                   [(Hr & _ & _ & -> & _)|(Hr & _ & _ & -> & _)]]]); [done|..].
    all: apply Forall_app; split; [done|]; apply Forall_singleton.
    all: apply stored_shaped; try done.
    + intros _. left. by split.
    + unfold is_kept. rewrite Hr. done.
    + intros _. right. split; [done|]. apply spill_path_nonempty.
    + unfold is_kept. rewrite Hr. done.
Qed.

Lemma store_shape_witness :
  exists st,
    extract_loop foo_world "/tmp/ipa-spill1" engine0 foo_tar = Ok st /\
    Forall shaped (files st).
Proof.
  eexists. split; [vm_compute; reflexivity|].
  apply (store_shape foo_world "/tmp/ipa-spill1" foo_tar).
  vm_compute; reflexivity.
Defined.

(** ** The scan of the ar archive *)

(** X6: an archive in which no member name begins with [data.tar], read to
    its end without error, fails the conversion with the missing-payload
    error, and no output file is made. *)
Theorem missing_payload (W : World) (debPath : string) (members : list ArNext) :
  Forall passed_over members ->
  convert W debPath (ArStream members) = failed ErrNoData.
Proof.
  intros Hall. unfold convert.
  rewrite <- (app_nil_r members), find_data_passed_over by done. done.
Qed.

Lemma missing_payload_witness :
  convert foo_world "Foo.deb"
    (ArStream [ArMember "debian-binary" []; ArMember "control.tar.gz" []])
  = failed ErrNoData.
Proof.
  apply (missing_payload foo_world "Foo.deb").
  repeat constructor; eexists _, _; (split; [reflexivity|reflexivity]).
Defined.

(** X7: the first member whose name begins with [data.tar] decides the
    run: the members before it are only skipped, and whatever follows it in
    the archive, a second payload or a read error, is never looked at. *)
Theorem first_payload_decides (W : World) (debPath : string)
    (pre post : list ArNext) (name : string) (content : list byte) :
  Forall passed_over pre ->
  HasPrefix name "data.tar" = true ->
  convert W debPath (ArStream (pre ++ ArMember name content :: post)) =
  convert W debPath (ArStream [ArMember name content]).
Proof.
  intros Hpre Hname. unfold convert.
  rewrite find_data_passed_over by done. cbn [find_data]. by rewrite Hname.
Qed.

Lemma first_payload_decides_witness :
  convert foo_world "Foo.deb"
    (ArStream [ArMember "debian-binary" []; ArMember "data.tar.gz" [];
               ArMember "data.tar.zst" []; ArFail])
  = convert foo_world "Foo.deb" (ArStream [ArMember "data.tar.gz" []]).
Proof.
  apply (first_payload_decides foo_world "Foo.deb" [ArMember "debian-binary" []]
           [ArMember "data.tar.zst" []; ArFail] "data.tar.gz" []).
  - repeat constructor; eexists _, _; (split; [reflexivity|reflexivity]).
  - reflexivity.
Defined.

(** ** Errors and the output file *)

Lemma find_data_error W (members : list ArNext) (e : Error) :
  find_data W members = Err e ->
  e = ErrNoData \/ e = ErrArRead \/ e = ErrDecompression \/
  exists name, e = ErrUnsupportedCompression name.
Proof.
  induction members as [|[|name content] members IH]; cbn [find_data].
  - intros [= <-]. by left.
  - intros [= <-]. right. by left.
  - destruct (HasPrefix name "data.tar"); [|done].
    unfold open_payload, opened.
    repeat case_match; intros [= <-]; eauto 6.
Qed.

Lemma extract_loop_error W tempDir (stream : list TarNext) (st : Engine) (e : Error) :
  extract_loop W tempDir st stream = Err e ->
  e = ErrTarRead \/ e = ErrReadAll \/ e = ErrSpillCreate.
Proof.
  revert st. induction stream as [|[|header body bodyErr] stream IH]; intros st;
    cbn [extract_loop]; [done|intros [= <-]; by left|].
  destruct (extract_step _ _ _ _ _ _) as [st1|e1] eqn:Hstep; [apply IH|].
  intros [= <-]. revert Hstep. unfold extract_step, place, ReadAll.
  repeat case_match; intros; simplify_eq; eauto.
Qed.

Lemma pack_loop_error W disk cleanAppPrefix appNameFolder executableName
    (files : list VirtualFile) (written out : list ZipEntry) (e : Error) :
  pack_loop W disk cleanAppPrefix appNameFolder executableName files written
    = (Some e, out) -> e = ErrZipHeader.
Proof.
  revert written. induction files as [|vf files IH]; intros written;
    cbn [pack_loop]; [done|].
  destruct (negb _); [apply IH|].
  destruct (zip_CreateHeader W _); [apply IH|]. by intros [= <- _].
Qed.

(** X8: the output file exists exactly when the run got as far as
    packaging. A run without error leaves the file at [ipa_path] with every
    selected entry; a run stopped by the zip writer leaves the file at that
    path with the entries written so far; a run that fails in any other way
    leaves no output file at all. *)
Theorem output_file_presence (W : World) (debPath : string) (deb : DebSource) :
  let o := convert W debPath deb in
  (error o = None -> exists written, ipa o = Some (ipa_path debPath, written)) /\
  (error o = Some ErrZipHeader ->
   exists written, ipa o = Some (ipa_path debPath, written)) /\
  (forall e, error o = Some e -> e <> ErrZipHeader -> ipa o = None).
Proof.
  cbv zeta. split; [apply convert_success_output|].
  unfold convert. destruct deb as [| |members]; [by split..|].
  destruct (find_data W members) as [dataTar|e0] eqn:Hfind.
  2: { destruct (find_data_error _ _ _ Hfind) as [->|[->|[->|[name ->]]]];
       by split. }
  destruct (os_MkdirTemp W) as [tempDir|]; [|by split].
  destruct (extract_loop W tempDir engine0 dataTar) as [st|e0] eqn:Hloop.
  2: { destruct (extract_loop_error _ _ _ _ _ Hloop) as [->|[->| ->]];
       by split. }
  destruct (String.eqb (appDirPrefix st) ""); [by split|].
  destruct (os_Create W (ipa_path debPath)); [|by split].
  destruct (pack_loop _ _ _ _ _ _ _) as [[e|] out] eqn:Hpack; cbn [error ipa].
  - apply pack_loop_error in Hpack as ->.
    split; [by eexists|by intros e [= <-] Hne].
  - by split.
Qed.

Lemma output_file_presence_witness :
  ipa (convert foo_world "Foo.deb" (ArStream [ArMember "data.tar.zst" []])) = None.
Proof.
  apply (proj2 (proj2 (output_file_presence foo_world "Foo.deb"
                         (ArStream [ArMember "data.tar.zst" []])))
           (ErrUnsupportedCompression "data.tar.zst")).
  - reflexivity.
  - discriminate.
Defined.

(** ** The program entry *)

(** X9: [main] exits with status 0 exactly when it was given a path and
    the conversion of [Args[1]] returned no error, and then the output is
    at [ipa_path] of that argument; arguments after the first are ignored.
    With no path argument it exits with status 1 without converting
    anything. *)
Theorem main_exit_status (W : World) (fs : string -> DebSource)
    (Args : list string) :
  (fst (main W fs Args) = 0 <->
   exists prog debPath rest written,
     Args = prog :: debPath :: rest /\
     convert W debPath (fs debPath) =
       {| error := None; ipa := Some (ipa_path debPath, written) |}) /\
  (fst (main W fs Args) = 0 \/ fst (main W fs Args) = 1) /\
  ((length Args < 2)%nat -> main W fs Args = (1, None)).
Proof.
  unfold main. destruct Args as [|prog [|debPath rest]].
  - cbn. split_and!; [|by right|done].
    split; [done|]. by intros (? & ? & ? & ? & ? & _).
  - cbn. split_and!; [|by right|done].
    split; [done|]. by intros (? & ? & ? & ? & ? & _).
  - replace (Z.of_nat (length (prog :: debPath :: rest)) <? 2) with false
      by (symmetry; apply Z.ltb_ge; cbn [length]; lia).
    change (default "" ((prog :: debPath :: rest) !! 1%nat)) with debPath.
    pose proof (convert_success_output W debPath (fs debPath)) as Hok.
    destruct (convert W debPath (fs debPath)) as [err out] eqn:Hc.
    cbn [error ipa] in *. destruct err as [e|]; cbn [fst].
    + split_and!; [|by right|cbn; lia].
      split; [done|]. intros (? & ? & ? & ? & [= _ <- _] & Heq).
      rewrite Hc in Heq. done.
    + split_and!; [|by left|cbn; lia].
      split; [|done]. intros _. destruct (Hok eq_refl) as (written & ->).
      by exists prog, debPath, rest, written.
Qed.

Lemma main_exit_status_witness :
  fst (main foo_world (fun _ => ArStream [ArMember "data.tar.gz" []])
         ["deb-to-ipa"; "Foo.deb"; "ignored"]) = 0 /\
  main foo_world (fun _ => ArStream [ArMember "data.tar.gz" []]) ["deb-to-ipa"]
  = (1, None).
Proof.
  destruct (main_exit_status foo_world (fun _ => ArStream [ArMember "data.tar.gz" []])
              ["deb-to-ipa"; "Foo.deb"; "ignored"]) as ((_ & Hzero) & _).
  destruct (main_exit_status foo_world (fun _ => ArStream [ArMember "data.tar.gz" []])
              ["deb-to-ipa"]) as (_ & _ & Hone).
  split.
  - apply Hzero. eexists _, _, _, _. split; [reflexivity|].
    vm_compute; reflexivity.
  - apply Hone. cbn. lia.
Defined.

(** ** The app root *)

Lemma detect_app_root_shape (name : string) :
  (detect_app_root "" name = "" /\ ~ occurs ".app/" name) \/
  (exists pre, detect_app_root "" name = pre +:+ ".app/" /\
               before_first ".app/" name pre).
Proof.
  destruct (Z.eq_dec (Index name ".app/") (-1)) as [Hidx|Hne].
  - left. assert (~ occurs ".app/" name) as Hno.
    { intros (pre & post & Heq). by destruct (Index_absent _ _ Hidx pre post). }
    split; [by apply detect_app_root_absent|done].
  - right. destruct (Index_found name ".app/" _ eq_refl Hne)
      as (pre & post & Heq & Hlen & Hmin).
    exists pre. assert (before_first ".app/" name pre) as Hb.
    { split; [by exists post|]. intros pre' post' Heq'. rewrite Hlen. eauto. }
    split; [by apply detect_app_root_first|done].
Qed.

Lemma fold_detect_shape (names : list string) :
  (fold_left detect_app_root names "" = "" /\
   forall n, n ∈ names -> ~ occurs ".app/" n) \/
  (exists pre n, n ∈ names /\
     fold_left detect_app_root names "" = pre +:+ ".app/" /\
     before_first ".app/" n pre).
Proof.
  induction names as [|n names IH].
  - left. split; [done|]. by intros n Hn%elem_of_nil.
  - cbn [fold_left].
    destruct (detect_app_root_shape n) as [(-> & Hno)|(pre & -> & Hb)].
    + destruct IH as [(-> & Hall)|(pre & m & Hm & -> & Hb)].
      * left. split; [done|].
        intros m [->|Hm]%elem_of_cons; [done|by apply Hall].
      * right. exists pre, m. split; [by right|done].
    + right. exists pre, n. split; [by left|]. split; [|done].
      apply fold_detect_set. by destruct pre.
Qed.

(** X10: once the payload is open and the pass has read the tar stream to
    its end, the conversion fails with the unsupported-app error exactly
    when no header path of the stream, of any type, contains [.app/]. *)
Theorem app_root_missing (W : World) (debPath : string) (members : list ArNext)
    (dataTar : list TarNext) (tempDir : string) (st : Engine) :
  find_data W members = Ok dataTar ->
  os_MkdirTemp W = Some tempDir ->
  extract_loop W tempDir engine0 dataTar = Ok st ->
  convert W debPath (ArStream members) = failed ErrUnsupportedApp <->
  forall n, n ∈ header_names dataTar -> ~ occurs ".app/" n.
Proof.
  intros Hfind Hdir Hloop. unfold convert. rewrite Hfind, Hdir, Hloop.
  rewrite (extract_loop_app_root _ _ _ _ _ Hloop). cbn [appDirPrefix engine0].
  destruct (fold_detect_shape (header_names dataTar))
    as [(-> & Hall)|(pre & n & Hn & -> & Hb)].
  - done.
  - assert (String.eqb (pre +:+ ".app/") "" = false) as -> by (by destruct pre).
    split.
    + destruct (os_Create W _); [|done]. by destruct (pack_loop _ _ _ _ _ _ _).
    + intros Hall. destruct (Hall n Hn). destruct Hb as [[post ->] _].
      by exists pre, post.
Qed.

Lemma app_root_missing_witness :
  convert (unix_world [entry "usr/bin/tool" TypeReg 0x1ed "ELF"] None) "tool.deb"
    (ArStream [ArMember "data.tar.xz" []])
  = failed ErrUnsupportedApp.
Proof.
  eapply (app_root_missing (unix_world [entry "usr/bin/tool" TypeReg 0x1ed "ELF"] None)
            "tool.deb" [ArMember "data.tar.xz" []]
            [entry "usr/bin/tool" TypeReg 0x1ed "ELF"] "/tmp/ipa-spill1").
  - reflexivity.
  - reflexivity.
  - vm_compute; reflexivity.
  - intros n ->%list_elem_of_singleton (a & b & Heq).
    assert (Index "usr/bin/tool" ".app/" = -1) as Hidx by reflexivity.
    exact (Index_absent _ _ Hidx a b Heq).
Defined.

Lemma ReplaceByte_app (a b : string) (old new : ascii) :
  ReplaceByte (a +:+ b) old new = ReplaceByte a old new +:+ ReplaceByte b old new.
Proof. induction a as [|c a IH]; [done|]. cbn. by rewrite IH. Qed.

Lemma ToSlash_app_folder (sep : ascii) (pre : string) :
  sep = "/"%char \/ sep = "\"%char ->
  Filepath.ToSlash sep (pre +:+ ".app/") = Filepath.ToSlash sep pre +:+ ".app/".
Proof.
  intros [->| ->]; unfold Filepath.ToSlash; cbn [Ascii.eqb]; [done|].
  change (Ascii.eqb "\" GoPath.slash) with false. cbv iota.
  by rewrite ReplaceByte_app.
Qed.

(** Every path is a directory part, empty or ending in a slash, followed
    by a last element without slash. *)
Lemma split_last_element (x : string) :
  exists dir name,
    x = dir +:+ name /\ GoPath.has_slash name = false /\
    (dir = "" \/ exists d, dir = d +:+ "/").
Proof.
  induction x as [|c x (dir & name & -> & Hname & Hdir)].
  - exists "", "". split; [done|]. split; [done|]. by left.
  - destruct Hdir as [->|[d ->]].
    + destruct (Ascii.eqb_spec c GoPath.slash) as [->|Hc].
      * exists "/", name. split; [done|]. split; [done|]. right. by exists "".
      * exists "", (String c name). split; [done|]. split; [|by left].
        cbn. rewrite Hname. by apply Ascii.eqb_neq in Hc as ->.
    + exists (String c (d +:+ "/")), name. split; [done|]. split; [done|].
      right. by exists (String c d).
Qed.

(** X11: on a host whose separator is the slash or the backslash, the app
    root found by a pass is a prefix of one of the header paths and ends in
    [.app/], and the folder written under [Payload/] is one path element
    ending in [.app]; the fallback executable name is that element without
    the suffix. *)
Theorem app_folder_name (W : World) (tempDir : string)
    (stream : list TarNext) (st : Engine) :
  Separator W = "/"%char \/ Separator W = "\"%char ->
  extract_loop W tempDir engine0 stream = Ok st ->
  appDirPrefix st <> "" ->
  exists n name,
    n ∈ header_names stream /\
    HasPrefix n (appDirPrefix st) = true /\
    HasSuffix (appDirPrefix st) ".app/" = true /\
    GoPath.has_slash name = false /\
    GoPath.Base (Filepath.ToSlash (Separator W) (appDirPrefix st)) = name +:+ ".app" /\
    resolve_executable ""
      (GoPath.Base (Filepath.ToSlash (Separator W) (appDirPrefix st))) = name.
Proof.
  intros Hsep Hloop Hne.
  rewrite (extract_loop_app_root _ _ _ _ _ Hloop) in Hne |- *.
  cbn [appDirPrefix engine0] in *.
  destruct (fold_detect_shape (header_names stream))
    as [(Hempty & _)|(pre & n & Hn & -> & [[post Heq] _])]; [done|].
  rewrite ToSlash_app_folder by done.
  destruct (split_last_element (Filepath.ToSlash (Separator W) pre))
    as (dir & name & -> & Hname & Hdir).
  exists n, name. split; [done|].
  split; [apply HasPrefix_spec; exists post; by rewrite app_assoc_s|].
  split; [apply HasSuffix_app|]. split; [done|].
  rewrite app_assoc_s, Base_app_folder by done. split; [done|].
  unfold resolve_executable. cbn [String.eqb]. apply TrimSuffix_app.
Qed.

Lemma app_folder_name_witness :
  exists st name,
    extract_loop foo_world "/tmp/ipa-spill1" engine0 foo_tar = Ok st /\
    GoPath.has_slash name = false /\
    GoPath.Base (Filepath.ToSlash "/" (appDirPrefix st)) = name +:+ ".app".
Proof.
  assert (exists st, extract_loop foo_world "/tmp/ipa-spill1" engine0 foo_tar = Ok st
                     /\ appDirPrefix st = "./Foo.app/") as (st & Hloop & Hroot).
  { eexists. split; vm_compute; reflexivity. }
  destruct (app_folder_name foo_world "/tmp/ipa-spill1" foo_tar st
              (or_introl eq_refl) Hloop)
    as (n & name & _ & _ & _ & Hname & Hbase & _).
  - rewrite Hroot. discriminate.
  - exists st, name. split; [exact Hloop|]. split; [exact Hname|exact Hbase].
Defined.

(** ** Reading the external attributes back *)

Lemma permission_fix_bits (vf : VirtualFile) (finalPath executableName : string) :
  let '(_, t, p) := permission_fix vf finalPath executableName in
  (t = 0xA000 \/ t = 0x4000 \/ t = 0x8000) /\ 0 < p < 512.
Proof.
  unfold permission_fix. rewrite land_low9.
  pose proof (land_o777_range (Mode vf)) as Hr.
  unfold o777, o755, o644 in *.
  destruct (IsLink vf); [split; [auto|lia]|].
  destruct (IsDir vf).
  - destruct (Z.eqb_spec (Z.land (Mode vf) 0x1ff) 0); split; auto; lia.
  - destruct (_ || _ || _); [split; [auto|lia]|].
    destruct (Z.eqb_spec (Z.land (Mode vf) 0x1ff) 0); split; auto; lia.
Qed.

Lemma land_low9_id (p : Z) : 0 <= p < 512 -> Z.land p 0x1ff = p.
Proof.
  intros Hp. change 0x1ff with (Z.ones 9). rewrite Z.land_ones by lia.
  apply Z.mod_small. lia.
Qed.

Lemma land_type_mask_perm (p : Z) : 0 <= p < 512 -> Z.land p 0xF000 = 0.
Proof.
  intros Hp. rewrite <- (land_low9_id p Hp), <- Z.land_assoc.
  change (Z.land 0x1ff 0xF000) with 0. apply Z.land_0_r.
Qed.

(** X12: the external attributes of an entry can be read back as Unix
    tools do: after a shift right by 16 the mask 0xF000 gives the type bits
    and the mask 0777 the permission bits, which are never zero; the low 16
    bits of the field, where the MS-DOS flags would be, are all zero. *)
Theorem external_attrs_read_back (vf : VirtualFile)
    (finalPath executableName : string) :
  let '(_, unixFileType, perms) := permission_fix vf finalPath executableName in
  let attrs := ExternalAttrs (make_header vf finalPath executableName) in
  Z.land (Z.shiftr attrs 16) 0xF000 = unixFileType /\
  Z.land (Z.shiftr attrs 16) 0x1ff = perms /\
  perms <> 0 /\
  Z.land attrs 0xFFFF = 0.
Proof.
  pose proof (permission_fix_bits vf finalPath executableName) as Hb.
  unfold make_header.
  destruct (permission_fix vf finalPath executableName) as [[m t] p].
  cbn [ExternalAttrs]. destruct Hb as [Ht Hp].
  assert (0 <= Z.lor t p < 2 ^ 16) as Hl by (apply lor_below_2_16; lia).
  unfold external_attrs, wrap_u32.
  rewrite (Z.mod_small p) by lia.
  rewrite Z.shiftl_mul_pow2 by lia.
  rewrite (Z.mod_small (Z.lor t p * 2 ^ 16)) by lia.
  rewrite Z.shiftr_div_pow2 by lia.
  rewrite Z.div_mul by lia.
  rewrite !Z.land_lor_distr_l, (land_type_mask_perm p), (land_low9_id p) by lia.
  split_and!.
  - rewrite Z.lor_0_r. by destruct Ht as [->|[->| ->]].
  - destruct Ht as [->|[->| ->]]; by rewrite Z.lor_0_l.
  - lia.
  - change 0xFFFF with (Z.ones 16). rewrite Z.land_ones by lia.
    apply Z.mod_mul. lia.
Qed.

(** ** Keys that the descriptor does not have *)

Lemma last_value_absent (keys : list string) (pairs : list (string * string))
    (dflt : string) :
  (forall kv, kv ∈ pairs -> kv.1 ∉ keys) -> last_value keys pairs dflt = dflt.
Proof.
  intros Hno. unfold last_value.
  assert (omap (fun kv : string * string =>
                  if bool_decide (kv.1 ∈ keys) then Some kv.2 else None) pairs
          = []) as ->; [|done].
  induction pairs as [|kv pairs IH]; [done|]. cbn.
  rewrite bool_decide_eq_false_2 by (apply Hno; left).
  apply IH. intros kv' Hin. apply Hno. by right.
Qed.

(** X13: a field whose key the descriptor does not have keeps its default:
    without [CFBundleExecutable] the executable name stays empty (and falls
    back on the folder name), without [CFBundleIdentifier] the bundle
    identifier is "Unknown", without both version keys the version is
    "Unknown". A descriptor with no string values sets nothing. *)
Theorem absent_keys_keep_defaults (keys strs : list string) :
  let m := plist_loop 0 keys strs metadata0 in
  ("CFBundleExecutable" ∉ keys -> executableName m = "") /\
  ("CFBundleIdentifier" ∉ keys -> bundleID m = "Unknown") /\
  ("CFBundleVersion" ∉ keys -> "CFBundleShortVersionString" ∉ keys ->
   version m = "Unknown") /\
  (strs = [] -> m = metadata0).
Proof.
  cbv zeta. rewrite plist_loop_fold, fold_assign, drop_0.
  cbn [executableName bundleID version metadata0].
  split_and!.
  - intros Hno. apply last_value_absent.
    intros [k v] Hin%elem_of_zip_l Hk%list_elem_of_singleton.
    cbn in Hk. by subst k.
  - intros Hno. apply last_value_absent.
    intros [k v] Hin%elem_of_zip_l Hk%list_elem_of_singleton.
    cbn in Hk. by subst k.
  - intros Hv Hs. apply last_value_absent.
    intros [k v] Hin%elem_of_zip_l
      [Hk|[Hk|[]%elem_of_nil]%elem_of_cons]%elem_of_cons; cbn in Hk; by subst k.
  - intros ->. assert (zip keys (@nil string) = []) as -> by (by destruct keys).
    done.
Qed.

Lemma absent_keys_keep_defaults_witness :
  version (plist_loop 0 ["CFBundleExecutable"; "CFBundleIdentifier"]
             ["Foo"; "com.example.foo"] metadata0) = "Unknown".
Proof.
  apply (absent_keys_keep_defaults ["CFBundleExecutable"; "CFBundleIdentifier"]
           ["Foo"; "com.example.foo"]).
  - intros [[=]|[[=]|[]%elem_of_nil]%elem_of_cons]%elem_of_cons.
  - intros [[=]|[[=]|[]%elem_of_nil]%elem_of_cons]%elem_of_cons.
Defined.

(** ** Output paths *)

Lemma app_nil_r_s (s : string) : s +:+ "" = s.
Proof. induction s as [|c s IH]; [done|]. cbn. by rewrite IH. Qed.

Lemma elems_nonempty (s : string) : GoPath.elems s <> [].
Proof.
  destruct s as [|c s]; cbn; [done|].
  destruct (GoPath.elems s); [done|]. by destruct (Ascii.eqb c GoPath.slash).
Qed.

Lemma elems_no_slash (a : string) :
  GoPath.has_slash a = false -> GoPath.elems a = [a].
Proof.
  induction a as [|c a IH]; [done|]. cbn.
  intros [Hc Ha]%orb_false_elim. by rewrite (IH Ha), Hc.
Qed.

Lemma elems_app_slash (a b : string) :
  GoPath.has_slash a = false ->
  GoPath.elems (a +:+ String GoPath.slash b) = a :: GoPath.elems b.
Proof.
  induction a as [|c a IH]; cbn.
  - intros _. pose proof (elems_nonempty b).
    destruct (GoPath.elems b); [done|]. done.
  - intros [Hc Ha]%orb_false_elim. by rewrite (IH Ha), Hc.
Qed.

Lemma elems_join (l : list string) (trailing : bool) :
  Forall plain l -> l <> [] ->
  GoPath.elems (GoPath.join_slash l +:+ (if trailing then "/" else "")) =
  l ++ (if trailing then [""] else []).
Proof.
  intros Hall Hne. induction Hall as [|e l (He & _) Hl IH]; [done|].
  destruct l as [|e' l].
  - cbn [GoPath.join_slash]. destruct trailing.
    + by apply (elems_app_slash e "").
    + by rewrite app_nil_r_s, elems_no_slash.
  - change (GoPath.join_slash (e :: e' :: l))
      with (e +:+ String GoPath.slash (GoPath.join_slash (e' :: l))).
    rewrite app_assoc_s.
    change (String GoPath.slash (GoPath.join_slash (e' :: l)) +:+
              (if trailing then "/" else ""))
      with (String GoPath.slash
              (GoPath.join_slash (e' :: l) +:+ (if trailing then "/" else ""))).
    rewrite elems_app_slash by done. by rewrite IH.
Qed.

Lemma clean_step_plain (l out : list string) (n : nat) :
  Forall plain l ->
  fold_left (GoPath.clean_step false) l (out, n) = (rev l ++ out, (n + length l)%nat).
Proof.
  intros Hall. revert out n.
  induction Hall as [|e l (_ & He & Hd & Hdd) _ IH]; intros out n.
  - cbn. f_equal. lia.
  - cbn [fold_left]. unfold GoPath.clean_step at 2.
    apply String.eqb_neq in He, Hd, Hdd. rewrite He, Hd, Hdd. cbn [orb].
    rewrite IH. cbn [rev length]. rewrite <- app_assoc. f_equal. lia.
Qed.

Lemma join_slash_nonempty (e : string) (l : list string) :
  e <> "" -> GoPath.join_slash (e :: l) <> "".
Proof. destruct e; [done|]. by destruct l. Qed.

(** [path.Clean] leaves a relative path of plain elements as it is, and
    drops one trailing slash. *)
Lemma Clean_plain (l : list string) (trailing : bool) :
  Forall plain l -> l <> [] ->
  GoPath.Clean (GoPath.join_slash l +:+ (if trailing then "/" else "")) =
  GoPath.join_slash l.
Proof.
  intros Hall Hne. pose proof (elems_join l trailing Hall Hne) as Helems.
  destruct l as [|e l]; [done|].
  assert (plain e) as (Hslash & He & _) by (by inversion Hall).
  pose proof (join_slash_nonempty e l He) as Hj.
  destruct (GoPath.join_slash (e :: l) +:+ (if trailing then "/" else ""))
    as [|c s] eqn:Hs.
  { destruct (GoPath.join_slash (e :: l)); [done|discriminate]. }
  assert (Ascii.eqb c GoPath.slash = false) as Hc.
  { destruct e as [|c' e]; [done|]. cbn in Hslash.
    apply orb_false_elim in Hslash as [Hc' _].
    destruct l; cbn in Hs; injection Hs as <- _; done. }
  unfold GoPath.Clean. rewrite Hc, Helems, fold_left_app, clean_step_plain by done.
  assert (fst (fold_left (GoPath.clean_step false)
                 (if trailing then [""] else [])
                 (rev (e :: l) ++ [], (0 + length (e :: l))%nat))
          = rev (e :: l)) as ->.
  { rewrite app_nil_r. by destruct trailing. }
  rewrite rev_involutive.
  by apply String.eqb_neq in Hj as ->.
Qed.

(** X14: the output path of an entry inside the app folder. The entry of
    the app root itself goes to [Payload/<folder>]; an entry whose path
    below the root consists of plain elements (no empty one, no [.], no
    [..]), with or without a trailing slash, goes to
    [Payload/<folder>/<path below the root>]. A directory gets exactly one
    trailing slash, any other entry none. *)
Theorem output_path_mapping (vf : VirtualFile)
    (cleanAppPrefix appNameFolder : string) :
  plain appNameFolder ->
  final_path vf cleanAppPrefix cleanAppPrefix appNameFolder =
    "Payload/" +:+ appNameFolder +:+ (if IsDir vf then "/" else "") /\
  (forall (els : list string) (trailing : bool),
     Forall plain els -> els <> [] ->
     final_path vf
       (cleanAppPrefix +:+ GoPath.join_slash els +:+ (if trailing then "/" else ""))
       cleanAppPrefix appNameFolder =
     "Payload/" +:+ appNameFolder +:+ "/" +:+ GoPath.join_slash els +:+
     (if IsDir vf then "/" else "")).
Proof.
  intros Hfolder.
  assert (plain "Payload") as Hp by (by split_and!).
  assert (forall rel,
            GoPath.Join ["Payload"; appNameFolder; rel] =
            GoPath.Clean ("Payload/" +:+ appNameFolder +:+ String GoPath.slash rel))
    as Hjoin.
  { intros rel. unfold GoPath.Join.
    cbv -[GoPath.Clean String.append GoPath.slash]. by rewrite app_assoc_s. }
  assert (Forall plain ["Payload"; appNameFolder]) as HPF
    by (apply Forall_cons_2; [done|]; apply Forall_cons_2; [done|]; constructor).
  unfold final_path. split.
  - assert (TrimPrefix cleanAppPrefix cleanAppPrefix = "") as ->.
    { rewrite <- (app_nil_r_s cleanAppPrefix) at 1. apply TrimPrefix_app. }
    rewrite Hjoin.
    assert (GoPath.Clean ("Payload/" +:+ appNameFolder +:+ String GoPath.slash "")
            = "Payload/" +:+ appNameFolder) as ->.
    { exact (Clean_plain ["Payload"; appNameFolder] true HPF ltac:(done)). }
    destruct (IsDir vf); [by rewrite app_assoc_s|by rewrite app_nil_r_s].
  - intros els trailing Hels Hne. rewrite TrimPrefix_app, Hjoin.
    assert (Forall plain ("Payload" :: appNameFolder :: els)) as Hall
      by (apply Forall_cons_2; [done|]; by apply Forall_cons_2).
    pose proof (Clean_plain ("Payload" :: appNameFolder :: els) trailing
                  Hall ltac:(done)) as Hc.
    destruct els as [|e els]; [done|].
    change (GoPath.join_slash ("Payload" :: appNameFolder :: e :: els))
      with (("Payload/" +:+ appNameFolder) +:+
            String GoPath.slash (GoPath.join_slash (e :: els))) in Hc.
    rewrite !app_assoc_s in Hc.
    assert (GoPath.Clean
              ("Payload/" +:+ appNameFolder +:+
               String GoPath.slash
                 (GoPath.join_slash (e :: els) +:+ (if trailing then "/" else "")))
            = "Payload/" +:+ appNameFolder +:+
              String GoPath.slash (GoPath.join_slash (e :: els))) as ->
      by exact Hc.
    destruct (IsDir vf); [by rewrite !app_assoc_s|by rewrite app_nil_r_s].
Qed.

Lemma output_path_mapping_witness :
  final_path {| Name := "Applications/Foo.app/Frameworks/"; Data := None;
                DiskPath := ""; Mode := 0x1ed; ModTime := 0; IsDir := true;
                IsLink := false; LinkDest := "" |}
    "Applications/Foo.app/Frameworks/" "Applications/Foo.app/" "Foo.app"
  = "Payload/Foo.app/Frameworks/".
Proof.
  apply (proj2 (output_path_mapping
                  {| Name := "Applications/Foo.app/Frameworks/"; Data := None;
                     DiskPath := ""; Mode := 0x1ed; ModTime := 0; IsDir := true;
                     IsLink := false; LinkDest := "" |}
                  "Applications/Foo.app/" "Foo.app" ltac:(by split_and!))
           ["Frameworks"] true).
  - repeat constructor; done.
  - done.
Defined.

(** A path below the root that climbs with [..] leaves [Payload/]:
    [path.Join] cleans it lexically and the code does not check the
    result. *)
Example dot_dot_leaves_payload :
  final_path {| Name := "Foo.app/../../etc/passwd"; Data := Some [];
                DiskPath := ""; Mode := 0x1a4; ModTime := 0; IsDir := false;
                IsLink := false; LinkDest := "" |}
    "Foo.app/../../etc/passwd" "Foo.app/" "Foo.app"
  = "etc/passwd".
Proof. reflexivity. Qed.

(** ** A tar stream that breaks *)

(** X15: a read error of the tar reader, wherever it comes in the stream
    and whatever was read before it, ends the conversion with an error and
    without an output file: an app that was complete before the break is
    not written. *)
Theorem broken_tar_no_output (W : World) (debPath : string)
    (members : list ArNext) (pre post : list TarNext) :
  find_data W members = Ok (pre ++ TarFail :: post) ->
  exists e,
    convert W debPath (ArStream members) = failed e /\
    (e = ErrMkdirTemp \/ e = ErrTarRead \/ e = ErrReadAll \/ e = ErrSpillCreate).
Proof.
  intros Hfind. unfold convert. rewrite Hfind.
  destruct (os_MkdirTemp W) as [tempDir|]; [|exists ErrMkdirTemp; by split; [|left]].
  rewrite extract_loop_app.
  destruct (extract_loop W tempDir engine0 pre) as [st1|e] eqn:Hpre.
  - cbn [extract_loop]. exists ErrTarRead. split; [done|]. right. by left.
  - exists e. split; [done|]. right.
    by destruct (extract_loop_error _ _ _ _ _ Hpre) as [->|[->| ->]]; eauto.
Qed.

Lemma broken_tar_no_output_witness :
  exists e,
    convert (unix_world (foo_tar ++ [TarFail]) (Some foo_plist)) "Foo.deb"
      (ArStream [ArMember "data.tar.gz" []]) = failed e.
Proof.
  destruct (broken_tar_no_output (unix_world (foo_tar ++ [TarFail]) (Some foo_plist))
              "Foo.deb" [ArMember "data.tar.gz" []] foo_tar [] eq_refl)
    as (e & He & _).
  by exists e.
Defined.
